(** * comprimirfotos: upload sessions, ZIP building and download

    A shallow embedding of the two Express applications of the repository:
    - the session variant (uploads accumulate per [chatId], [/comprimir]
      bundles and clears them), in module [Session];
    - the stateless variant (one request is filtered, stored, zipped and a
      download link returned, [/descargar/:filename] serves it), in module
      [Stateless].

    JavaScript strings are [string]; the session [Map] is a [gmap]; the disk
    is a finite map from paths to what is stored there; [Date.now()],
    [Math.random()] and the outcome of the archiver are inputs of the
    handlers. *)

From Stdlib Require Import Ascii String NArith ZArith DecimalString DecimalPos
  DecimalN.
From stdpp Require Import base option list gmap strings.

Local Open Scope N_scope.

(** ** JavaScript values and strings *)

Module Js.

(** The values a parsed JSON body or a parsed query string can hold under
    a key, as far as [getChatId] looks at them. Numbers are the integers
    JavaScript prints digit by digit (below 1e21 in magnitude); fractions
    and plain objects are left out. *)
#[warning="-register-all"]
Inductive value :=
| VUndefined
| VNull
| VBool (b : bool)
| VNum (n : Z)
| VStr (s : string)
| VArr (l : list value).

(** ToBoolean: what [a || b] tests. *)
Definition truthy (v : value) : bool :=
  match v with
  | VUndefined | VNull => false
  | VBool b => b
  | VNum n => negb (n =? 0)%Z
  | VStr s => negb (String.eqb s "")
  | VArr _ => true
  end.

(** [a || b] *)
Definition or (a b : value) : value := if truthy a then a else b.

Fixpoint join_comma (l : list string) : string :=
  match l with
  | [] => ""
  | [x] => x
  | x :: xs => x +:+ "," +:+ join_comma xs
  end.

(** [v.toString()]; an array joins its elements with a comma, [null] and
    [undefined] elements giving the empty string. On [null] and
    [undefined] themselves the call throws: [getChatId] never gets there
    (lemma [getChatId_truthy]). *)
Fixpoint toString (v : value) : string :=
  match v with
  | VUndefined => "undefined"
  | VNull => "null"
  | VBool true => "true"
  | VBool false => "false"
  | VNum n => NilEmpty.string_of_int (Z.to_int n)
  | VStr s => s
  | VArr l =>
      join_comma
        (map (fun x => match x with
                       | VUndefined | VNull => ""
                       | _ => toString x
                       end) l)
  end.

(** Number to string, for the non-negative integers the code formats
    ([Date.now()], a rounded random number). *)
Definition decimal (n : N) : string :=
  NilEmpty.string_of_uint (N.to_uint n).

Definition is_safe_char (c : ascii) : bool :=
  let n := N_of_ascii c in
  ((97 <=? n) && (n <=? 122))        (* a-z *)
  || ((65 <=? n) && (n <=? 90))      (* A-Z *)
  || ((48 <=? n) && (n <=? 57))      (* 0-9 *)
  || (n =? 46) || (n =? 95) || (n =? 45).  (* . _ - *)

(** [s.replace(/[^a-zA-Z0-9._-]/g, "_")] *)
Fixpoint replace_unsafe (s : string) : string :=
  match s with
  | EmptyString => EmptyString
  | String c s' =>
      String (if is_safe_char c then c else "_"%char) (replace_unsafe s')
  end.

Definition lower_char (c : ascii) : ascii :=
  let n := N_of_ascii c in
  if (65 <=? n) && (n <=? 90) then ascii_of_N (n + 32) else c.

(** [s.toLowerCase()] on the ASCII letters. *)
Fixpoint toLowerCase (s : string) : string :=
  match s with
  | EmptyString => EmptyString
  | String c s' => String (lower_char c) (toLowerCase s')
  end.

Fixpoint starts_with (p s : string) : bool :=
  match p, s with
  | EmptyString, _ => true
  | String a p', String b s' => Ascii.eqb a b && starts_with p' s'
  | String _ _, EmptyString => false
  end.

(** [s.includes(p)]: [p] occurs somewhere in [s]. *)
Fixpoint includes (p s : string) : bool :=
  starts_with p s
  || match s with
     | EmptyString => false
     | String _ s' => includes p s'
     end.

(** [/w1|w2|.../.test(s)] for literal alternatives: the expression has no
    anchors, so it matches when one of the words occurs anywhere in [s]. *)
Definition test_alternatives (words : list string) (s : string) : bool :=
  existsb (fun w => includes w s) words.

End Js.

(** ** Node's [path] module (POSIX) *)

Module Path.

Definition is_sep (c : ascii) : bool := Ascii.eqb c "/"%char.

(** The segments between the separators, empty ones included. *)
Fixpoint split (s : string) : list string :=
  match s with
  | EmptyString => [EmptyString]
  | String c s' =>
      if is_sep c then EmptyString :: split s'
      else match split s' with
           | [] => [String c EmptyString]
           | x :: xs => String c x :: xs
           end
  end.

Fixpoint join_sep (segs : list string) : string :=
  match segs with
  | [] => ""
  | [x] => x
  | x :: xs => x +:+ "/" +:+ join_sep xs
  end.

(** One segment of [normalizeString]; [stack] holds the kept segments,
    last one first. *)
Definition norm_step (allowAboveRoot : bool) (stack : list string)
    (seg : string) : list string :=
  if String.eqb seg "" || String.eqb seg "." then stack
  else if String.eqb seg ".." then
    match stack with
    | top :: rest =>
        if String.eqb top ".." then
          (if allowAboveRoot then ".." :: stack else stack)
        else rest
    | [] => if allowAboveRoot then [".."] else []
    end
  else seg :: stack.

Definition normalizeString (allowAboveRoot : bool) (p : string)
    : list string :=
  rev (fold_left (norm_step allowAboveRoot) (split p) []).

Definition first_is_sep (p : string) : bool :=
  match p with
  | String c _ => is_sep c
  | EmptyString => false
  end.

Fixpoint last_is_sep (p : string) : bool :=
  match p with
  | EmptyString => false
  | String c EmptyString => is_sep c
  | String _ p' => last_is_sep p'
  end.

(** [path.normalize] *)
Definition normalize (p : string) : string :=
  if String.eqb p "" then "."
  else
    let isAbsolute := first_is_sep p in
    let trailingSeparator := last_is_sep p in
    let body := join_sep (normalizeString (negb isAbsolute) p) in
    if String.eqb body "" then
      (if isAbsolute then "/" else if trailingSeparator then "./" else ".")
    else
      let body := if trailingSeparator then body +:+ "/" else body in
      if isAbsolute then "/" +:+ body else body.

(** [path.join]: the non-empty arguments joined with ["/"], normalised. *)
Definition join (parts : list string) : string :=
  match filter (fun s => s ≠ "") parts with
  | [] => "."
  | ne => normalize (join_sep ne)
  end.

(** [path.basename] (one argument): the last non-empty segment. *)
Definition basename (p : string) : string :=
  List.last (filter (fun s => s ≠ "") (split p)) "".

(** The suffix of [s] that starts at its last dot, together with whether
    that dot is the first character of [s]. *)
Fixpoint last_dot (s : string) : option (string * bool) :=
  match s with
  | EmptyString => None
  | String c s' =>
      match last_dot s' with
      | Some (ext, _) => Some (ext, false)
      | None => if Ascii.eqb c "."%char then Some (s, true) else None
      end
  end.

(** [path.extname]: from the last dot of the basename to its end; empty
    when there is no dot, when the dot opens the basename, and for
    [".."]. *)
Definition extname (p : string) : string :=
  let b := basename p in
  match last_dot b with
  | None => ""
  | Some (ext, at_start) =>
      if at_start || String.eqb b ".." then "" else ext
  end.

(** [p] is strictly below the directory [dir]. *)
Definition inside (dir p : string) : bool :=
  Js.starts_with (dir +:+ "/") p.

End Path.

(** ** What both applications share: requests, responses, the disk *)

Module Http.

(** A file as multer hands it to the handlers ([req.files]). *)
Record file := File {
  originalname : string;
  mimetype : string;
  filename : string;
  path : string;
  size : N;
}.

(** [req]: the parsed body and query string (either may be missing) and
    the files multer stored. *)
Record request := Request {
  body : option (gmap string Js.value);
  query : option (gmap string Js.value);
  files : option (list file);
}.

(** [obj?.key] *)
Definition opt_get (obj : option (gmap string Js.value)) (key : string)
    : Js.value :=
  match obj with
  | None => Js.VUndefined
  | Some m => default Js.VUndefined (m !! key)
  end.

(** A request whose body and query hold at most a [chatId]. *)
Definition with_ids (b q : option Js.value) (fs : option (list file))
    : request :=
  Request (Some (from_option (λ v, {["chatId" := v]}) ∅ b))
          (Some (from_option (λ v, {["chatId" := v]}) ∅ q))
          fs.

(** The JSON values the responses are built from. *)
Inductive json :=
| JBool (b : bool)
| JNum (n : N)
| JStr (s : string)
| JUndefined.

Inductive response :=
| RSend (text : string)                                (* res.send *)
| RJson (status : N) (fields : list (string * json))   (* res.status(..).json *)
| RDownload (filePath : string) (name : string).       (* res.download *)

End Http.

Module Fs.

(** What a path of the disk holds: an uploaded file, a finished archive
    with the members the code handed to the archiver (source path, entry
    name) in the order they were added, or an output file whose archive
    was not completed. The directory tree is not tracked. *)
Inductive stored :=
| Blob
| Archive (members : list (string * string))
| Partial.

(** [fs.existsSync] *)
Definition existsSync (disk : gmap string stored) (p : string) : bool :=
  bool_decide (is_Some (disk !! p)).

(** How the archiver settles the promise of a build: the output stream
    closes, or the archive reports an error (with its message), the output
    file created or not by then. *)
Inductive zip_outcome :=
| ZipClosed
| ZipError (message : string) (out_created : bool).

(** The disk after the archiver ran on [outPath] with [members]. *)
Definition write_archive (outPath : string) (members : list (string * string))
    (zip : zip_outcome) (disk : gmap string stored) : gmap string stored :=
  match zip with
  | ZipClosed => <[outPath := Archive members]> disk
  | ZipError _ true => <[outPath := Partial]> disk
  | ZipError _ false => disk
  end.

Definition resolved (zip : zip_outcome) : bool :=
  match zip with ZipClosed => true | ZipError _ _ => false end.

End Fs.

(** ** The session variant *)

Module Session.
Import Http Fs.

Definition ROOT : string := "/tmp".
Definition UPLOAD_DIR : string := Path.join [ROOT; "uploads"].
Definition OUTPUT_DIR : string := Path.join [ROOT; "paquetes"].

(** [sessions: Map<chatId, {files: string[], createdAt: number}>] *)
Record session := Sess {
  files : list string;
  createdAt : N;
}.

(** The process state the handlers read and write: the session map and
    the disk. *)
Record state := State {
  sessions : gmap string session;
  disk : gmap string stored;
}.

(** [ensureSession]: the session of [chatId], inserted empty when the map
    has none. The returned object is the one the map holds. *)
Definition ensureSession (now : N) (chatId : string)
    (m : gmap string session) : session * gmap string session :=
  match m !! chatId with
  | Some s => (s, m)
  | None =>
      let s := {| files := []; createdAt := now |} in
      (s, <[chatId := s]> m)
  end.

(** [(req.body?.chatId || req.query?.chatId || "default").toString()] *)
Definition chatId_value (req : request) : Js.value :=
  Js.or (Js.or (opt_get (body req) "chatId") (opt_get (query req) "chatId"))
        (Js.VStr "default").

Definition getChatId (req : request) : string :=
  Js.toString (chatId_value req).

(** [storage.destination] and [storage.filename]; multer stores the file
    at the join of the two. *)
Definition destination (chatId : string) : string :=
  Path.join [UPLOAD_DIR; chatId].

Definition storage_filename (now : N) (original : string) : string :=
  Js.decimal now +:+ "-" +:+ Js.replace_unsafe original.

Definition store (now : N) (chatId original mime : string) (sz : N) : file :=
  let name := storage_filename now original in
  {| originalname := original; mimetype := mime; filename := name;
     path := Path.join [destination chatId; name]; size := sz |}.

(** The [archive.file(f, { name: path.basename(f) })] calls of
    [compressZIP]. *)
Definition zip_members (fs : list string) : list (string * string) :=
  map (fun f => (f, Path.basename f)) fs.

(** [compressZIP]: whether the promise resolved, and the disk after. *)
Definition compressZIP (outPath : string) (fs : list string)
    (zip : zip_outcome) (d : gmap string stored)
    : bool * gmap string stored :=
  (resolved zip, write_archive outPath (zip_members fs) zip d).

(** [app.all("/iniciar")] *)
Definition iniciar (now : N) (req : request) (st : state)
    : response * state :=
  let chatId := getChatId req in
  (RJson 200 [("ok", JBool true);
              ("message", JStr ("Sesión iniciada para chatId=" +:+ chatId
                                +:+ ". Envía las fotos con /upload."))],
   {| sessions := <[chatId := {| files := []; createdAt := now |}]>
                    (sessions st);
      disk := disk st |}).

(** [app.post("/upload")], after multer stored the files of the request.
    [s.files.push(...saved)] changes the session object the map holds. *)
Definition upload (now : N) (req : request) (st : state)
    : response * state :=
  let chatId := getChatId req in
  let '(s, m) := ensureSession now chatId (sessions st) in
  let saved := map path (default [] (Http.files req)) in
  let s' := {| files := files s ++ saved; createdAt := createdAt s |} in
  (RJson 200 [("ok", JBool true);
              ("chatId", JStr chatId);
              ("recibidasAhora", JNum (N.of_nat (length saved)));
              ("totalSesion", JNum (N.of_nat (length (files s'))))],
   {| sessions := <[chatId := s']> m; disk := disk st |}).

(** [app.all("/comprimir")] *)
Definition comprimir (now : N) (req : request) (zip : zip_outcome)
    (st : state) : response * state :=
  let chatId := getChatId req in
  let '(s, m) := ensureSession now chatId (sessions st) in
  match files s with
  | [] =>
      (RJson 400 [("ok", JBool false);
                  ("error", JStr "No hay fotos cargadas para este chatId.")],
       {| sessions := m; disk := disk st |})
  | _ :: _ =>
      let outName :=
        "fotos_" +:+ chatId +:+ "_" +:+ Js.decimal now +:+ ".zip" in
      let outPath := Path.join [OUTPUT_DIR; outName] in
      let '(ok, d) := compressZIP outPath (files s) zip (disk st) in
      if ok then
        (RDownload outPath outName,
         {| sessions := delete chatId m; disk := d |})
      else
        (RJson 500 [("ok", JBool false);
                    ("error", JStr "No se pudo generar el ZIP.")],
         {| sessions := m; disk := d |})
  end.

End Session.

(** ** The stateless variant *)

Module Stateless.
Import Http Fs.

(** A file part of a multipart request as it reaches multer, with the
    clock and the random draw at the moment its name is generated. *)
Record part := Part {
  fieldname : string;
  part_name : string;      (* the client's file name *)
  part_type : string;      (* the declared MIME type *)
  part_size : N;           (* bytes *)
  at_time : N;             (* Date.now() *)
  random : N;              (* Math.round(Math.random() * 1E9) *)
}.

(** A timer is the only task the handlers schedule. *)
Inductive effect :=
| SetTimeout (delay : N) (cleanup : list file)  (* setTimeout(() => cleanupFiles(..), delay) *)
| Respond (r : response).

Definition filetypes : list string :=
  ["jpeg"; "jpg"; "png"; "gif"; "pdf"; "zip"].

(** [fileFilter]: [true] accepts the file, [false] is the error
    "Solo se permiten archivos de imagen, PDF o ZIP". *)
Definition fileFilter (originalname mimetype : string) : bool :=
  let mimetype_ok := Js.test_alternatives filetypes mimetype in
  let extname_ok :=
    Js.test_alternatives filetypes
      (Js.toLowerCase (Path.extname originalname)) in
  mimetype_ok && extname_ok.

(** [storage.filename] *)
Definition storage_filename (now rnd : N) (original : string) : string :=
  Js.decimal now +:+ "-" +:+ Js.decimal rnd +:+ Path.extname original.

Definition fileSize_limit : N := 25 * 1024 * 1024.
Definition maxCount : nat := 10.

(** The [archive.file(file.path, { name: fileName })] calls of
    [createZip], with [fileName = file.originalname || basename]. *)
Definition entry_name (f : file) : string :=
  if String.eqb (originalname f) "" then Path.basename (path f)
  else originalname f.

Definition zip_members (fs : list file) : list (string * string) :=
  map (fun f => (path f, entry_name f)) fs.

(** [createZip] *)
Definition createZip (fs : list file) (outputPath : string)
    (zip : zip_outcome) (d : gmap string stored)
    : bool * gmap string stored :=
  (resolved zip, write_archive outputPath (zip_members fs) zip d).

(** [cleanupFiles]: every file is unlinked; a failing unlink is logged. *)
Definition cleanupFiles (fs : list file) (d : gmap string stored)
    : gmap string stored :=
  foldr (fun f acc => delete (path f) acc) d fs.

Section App.
(** [__dirname] and whether [NODE_ENV] is ["development"]. *)
Variable __dirname : string.
Variable development : bool.

Definition UPLOAD_DIR : string := Path.join [__dirname; "uploads"].
Definition OUTPUT_DIR : string := Path.join [__dirname; "paquetes"].

(** What multer is told of a part: the file name reduced to what follows
    its last slash or backslash (nothing for ["."] and [".."]), and the
    declared type in lower case. *)
Fixpoint after_last_slash (s : string) : option string :=
  match s with
  | EmptyString => None
  | String c s' =>
      match after_last_slash s' with
      | Some r => Some r
      | None =>
          if Ascii.eqb c "/"%char || Ascii.eqb c "\"%char then Some s'
          else None
      end
  end.

Definition announced_name (p : part) : string :=
  let b := default (part_name p) (after_last_slash (part_name p)) in
  if String.eqb b "." || String.eqb b ".." then "" else b.

Definition announced_type (p : part) : string :=
  Js.toLowerCase (part_type p).

(** The file multer stores for an accepted part ([req.files] entry). *)
Definition file_of (p : part) : file :=
  let name :=
    storage_filename (at_time p) (random p) (announced_name p) in
  {| originalname := announced_name p;
     mimetype := announced_type p;
     filename := name;
     path := Path.join [UPLOAD_DIR; name];
     size := part_size p |}.

(** The multer middleware [upload] ([.array('files', 10)], disk storage,
    [fileSize] 25 MiB, [fileFilter]), part by part: it stops at the first
    part it refuses, with the error message. A part without a file name
    is passed over; a file is written only after the filter accepted it,
    and a file that reaches the size limit is refused. *)
Fixpoint receive (parts : list part) (accepted : list file)
    (d : gmap string stored)
    : (string + list file) * list file * gmap string stored :=
  match parts with
  | [] => (inr accepted, accepted, d)
  | p :: rest =>
      if String.eqb (announced_name p) "" then receive rest accepted d
      else if negb (String.eqb (fieldname p) "files")
              || (maxCount <=? length accepted)%nat then
        (inl "Unexpected field", accepted, d)
      else if negb (fileFilter (announced_name p) (announced_type p)) then
        (inl "Solo se permiten archivos de imagen, PDF o ZIP",
         accepted, d)
      else if fileSize_limit <=? part_size p then
        (inl "File too large", accepted, d)
      else
        receive rest (accepted ++ [file_of p])
          (<[path (file_of p) := Blob]> d)
  end.

(** [upload(req, res, cb)]: on an error multer removes the files of the
    request it had written and calls back with the error; otherwise
    [req.files] is the list of stored files. *)
Definition upload (parts : list part) (d : gmap string stored)
    : (string + list file) * gmap string stored :=
  match receive parts [] d with
  | (inl err, written, d') => (inl err, cleanupFiles written d')
  | (inr fs, _, d') => (inr fs, d')
  end.

(** The callback of [app.post('/comprimir')], run on what multer
    produced. *)
Definition comprimir_cb (result : string + list file) (now : N)
    (zip : zip_outcome) (d : gmap string stored)
    : list effect * gmap string stored :=
  match result with
  | inl message =>
      ([Respond (RJson 400
          [("success", JBool false);
           ("error", JStr (if String.eqb message ""
                           then "Error al procesar los archivos"
                           else message));
           ("code", JStr "UPLOAD_ERROR")])], d)
  | inr [] =>
      ([Respond (RJson 400
          [("success", JBool false);
           ("error", JStr "No se han subido archivos");
           ("code", JStr "NO_FILES")])], d)
  | inr fs =>
      let zipFilename := "archivos-" +:+ Js.decimal now +:+ ".zip" in
      let zipPath := Path.join [OUTPUT_DIR; zipFilename] in
      let '(ok, d') := createZip fs zipPath zip d in
      if ok then
        ([SetTimeout 5000 fs;
          Respond (RJson 200
            [("success", JBool true);
             ("message", JStr "Archivos comprimidos exitosamente");
             ("downloadUrl", JStr ("/descargar/" +:+ zipFilename));
             ("filename", JStr zipFilename);
             ("fileCount", JNum (N.of_nat (length fs)))])], d')
      else
        ([Respond (RJson 500
            [("success", JBool false);
             ("error", JStr "Error al procesar los archivos");
             ("details",
              match zip with
              | ZipError message _ =>
                  if development then JStr message else JUndefined
              | ZipClosed => JUndefined
              end);
             ("code", JStr "COMPRESSION_ERROR")])], d')
  end.

(** [app.post('/comprimir')] *)
Definition comprimir (parts : list part) (now : N) (zip : zip_outcome)
    (d : gmap string stored) : list effect * gmap string stored :=
  let '(result, d') := upload parts d in
  comprimir_cb result now zip d'.

(** [app.get('/descargar/:filename')], for the decoded route parameter. *)
Definition descargar (name : string) (d : gmap string stored)
    : response :=
  let filePath := Path.join [OUTPUT_DIR; name] in
  if negb (existsSync d filePath) then
    RJson 404 [("success", JBool false);
               ("error", JStr "Archivo no encontrado");
               ("code", JStr "FILE_NOT_FOUND")]
  else RDownload filePath name.

End App.

(** The timers of a trace, run: what the disk holds once they fired. *)
Definition fire (e : effect) (d : gmap string stored) : gmap string stored :=
  match e with
  | SetTimeout _ fs => cleanupFiles fs d
  | Respond _ => d
  end.

End Stateless.

(** * Properties *)

(** ** The session key *)

Module KeyFacts.
Import Http Session.

(** A field the parsers of forms and query strings produce: missing, or
    a string. *)
Definition textual (v : Js.value) : Prop :=
  v = Js.VUndefined ∨ ∃ s, v = Js.VStr s.

(** The key as the specification words it: the body field when it is
    non-empty, else the query parameter when it is non-empty, else the
    default. *)
Definition key_by_priority (b q : Js.value) : string :=
  match b with
  | Js.VStr (String c s) => String c s
  | _ =>
      match q with
      | Js.VStr (String c s) => String c s
      | _ => "default"
      end
  end.

(** The value [getChatId] converts is never falsy, so [.toString()] is
    always called on a value that has it. *)
Lemma getChatId_truthy (req : request) :
  Js.truthy (chatId_value req) = true.
Proof.
  unfold chatId_value, Js.or.
  destruct (Js.truthy (opt_get (body req) "chatId")) eqn:Hb.
  - by rewrite Hb.
  - destruct (Js.truthy (opt_get (query req) "chatId")) eqn:Hq.
    + by rewrite Hq.
    + reflexivity.
Qed.

(** The key as the code computes it: the first of the two fields that is
    truthy in JavaScript's sense, converted to a string, else the
    default. *)
Definition key_by_truthiness (b q : Js.value) : string :=
  if Js.truthy b then Js.toString b
  else if Js.truthy q then Js.toString q
  else "default".

(** A JSON body whose [chatId] is the empty array, sent to a URL with
    [?chatId=abc]. *)
Definition array_request : request :=
  with_ids (Some (Js.VArr [])) (Some (Js.VStr "abc")) None.

(** The priority rule as the specification words it fails on
    [array_request]: the body field is empty, the query parameter is the
    non-empty ["abc"], and the key is neither that nor the default but the
    empty string, the conversion of the truthy empty array. *)
Lemma C7_empty_array_key :
  opt_get (body array_request) "chatId" = Js.VArr []
  ∧ opt_get (query array_request) "chatId" = Js.VStr "abc"
  ∧ key_by_priority (opt_get (body array_request) "chatId")
                    (opt_get (query array_request) "chatId") = "abc"
  ∧ getChatId array_request = ""
  ∧ getChatId array_request
    ≠ key_by_priority (opt_get (body array_request) "chatId")
                      (opt_get (query array_request) "chatId").
Proof. repeat split; try reflexivity. discriminate. Qed.

(** C7 (amended): on every request the session key is the string
    conversion of the body field [chatId] if that is truthy, otherwise of
    the query parameter [chatId] if that is truthy, otherwise
    ["default"], in that order; when both fields are strings or missing,
    truthy is non-empty and the key is the body field if non-empty, else
    the query parameter if non-empty, else ["default"]. *)
Theorem C7_getChatId_first_truthy (req : request) :
  getChatId req =
    key_by_truthiness (opt_get (body req) "chatId")
                      (opt_get (query req) "chatId")
  ∧ (textual (opt_get (body req) "chatId") →
     textual (opt_get (query req) "chatId") →
     getChatId req =
       key_by_priority (opt_get (body req) "chatId")
                       (opt_get (query req) "chatId")).
Proof.
  unfold getChatId, chatId_value, key_by_truthiness. split.
  - unfold Js.or.
    destruct (Js.truthy (opt_get (body req) "chatId")) eqn:Hb.
    + by rewrite Hb.
    + by destruct (Js.truthy (opt_get (query req) "chatId")).
  - intros [-> | [b ->]] [-> | [q ->]]; unfold Js.or; simpl.
    + reflexivity.
    + by destruct q.
    + by destruct b.
    + destruct b; simpl; [by destruct q | reflexivity].
Qed.

Lemma C7_getChatId_first_truthy_witness :
  getChatId (with_ids (Some (Js.VStr "")) (Some (Js.VStr "abc")) None)
  = "abc".
Proof.
  rewrite (proj2 (C7_getChatId_first_truthy
             (with_ids (Some (Js.VStr "")) (Some (Js.VStr "abc")) None))).
  - reflexivity.
  - right. exists "". reflexivity.
  - right. exists "abc". reflexivity.
Defined.

(** Values that are not strings go through JavaScript's truthiness and
    string conversion: a number in a JSON body gives its digits, unless it
    is zero; an empty array is truthy and converts to the empty key,
    whatever the query says. *)
Remark getChatId_number :
  getChatId (with_ids (Some (Js.VNum 573001234567)) None None)
  = "573001234567"
  ∧ getChatId (with_ids (Some (Js.VNum 0)) (Some (Js.VStr "abc")) None)
    = "abc".
Proof. split; reflexivity. Qed.

Remark getChatId_empty_array :
  getChatId (with_ids (Some (Js.VArr [])) (Some (Js.VStr "abc")) None) = "".
Proof. reflexivity. Qed.

End KeyFacts.

(** ** The session registry *)

Module RegistryFacts.
Import Http Fs Session.

(** The file list the registry holds for a key; none when it has no
    session. *)
Definition files_of (m : gmap string session) (k : string) : list string :=
  match m !! k with
  | Some s => files s
  | None => []
  end.

(** The locations one upload request contributes. *)
Definition saved_of (req : request) : list string :=
  map path (default [] (Http.files req)).

(** The creation time of the session of [k] after [ensureSession]. *)
Definition created (now : N) (m : gmap string session) (k : string) : N :=
  match m !! k with
  | Some s => createdAt s
  | None => now
  end.

Definition upload_reply (k : string) (received total : nat) : response :=
  RJson 200 [("ok", JBool true);
             ("chatId", JStr k);
             ("recibidasAhora", JNum (N.of_nat received));
             ("totalSesion", JNum (N.of_nat total))].

(** Upload requests handled one after the other, each at its own time. *)
Fixpoint uploads (calls : list (N * request)) (st : state)
    : list response * state :=
  match calls with
  | [] => ([], st)
  | (now, req) :: rest =>
      let '(r, st1) := upload now req st in
      let '(rs, st2) := uploads rest st1 in
      (r :: rs, st2)
  end.

Lemma ensureSession_lookup now k (m : gmap string session) :
  (ensureSession now k m).2 !! k
  = Some {| files := files_of m k; createdAt := created now m k |}.
Proof.
  unfold ensureSession, files_of, created.
  destruct (m !! k) as [[fs t]|] eqn:Hk; simpl.
  - exact Hk.
  - by rewrite lookup_insert_eq.
Qed.

Lemma ensureSession_fst now k (m : gmap string session) :
  (ensureSession now k m).1
  = {| files := files_of m k; createdAt := created now m k |}.
Proof.
  unfold ensureSession, files_of, created.
  by destruct (m !! k) as [[fs t]|].
Qed.

Lemma ensureSession_other now k k' (m : gmap string session) :
  k ≠ k' → (ensureSession now k m).2 !! k' = m !! k'.
Proof.
  intros Hne. unfold ensureSession.
  destruct (m !! k); simpl; [done | by rewrite lookup_insert_ne].
Qed.

Lemma ensureSession_files now k k' (m : gmap string session) :
  files_of (ensureSession now k m).2 k' = files_of m k'.
Proof.
  unfold files_of at 1. destruct (decide (k = k')) as [<- | Hne].
  - by rewrite ensureSession_lookup.
  - by rewrite ensureSession_other.
Qed.

(** One upload, in closed form. *)
Lemma upload_step now req st :
  upload now req st =
    (upload_reply (getChatId req) (length (saved_of req))
       (length (files_of (sessions st) (getChatId req) ++ saved_of req)),
     {| sessions :=
          <[getChatId req :=
              {| files := files_of (sessions st) (getChatId req)
                          ++ saved_of req;
                 createdAt := created now (sessions st) (getChatId req) |}]>
            (sessions st);
        disk := disk st |}).
Proof.
  unfold upload, upload_reply, saved_of, ensureSession, files_of, created.
  destruct (sessions st !! getChatId req) as [[fs t]|]; simpl.
  - reflexivity.
  - by rewrite insert_insert_eq.
Qed.

Lemma files_of_insert (m : gmap string session) k s :
  files_of (<[k := s]> m) k = files s.
Proof. unfold files_of. by rewrite lookup_insert_eq. Qed.

(** C5: uploads to one key accumulate in call order and, inside a call,
    in the order of the request's files; the first one creates the
    session when there is none; every reply carries the count of the
    request and the new total. *)
Theorem C5_uploads_accumulate (k : string) (calls : list (N * request))
    (st : state) :
  Forall (λ c, getChatId c.2 = k) calls →
  let old := files_of (sessions st) k in
  let out := uploads calls st in
  files_of (sessions out.2) k = old ++ concat (map (λ c, saved_of c.2) calls)
  ∧ (calls ≠ [] → is_Some (sessions out.2 !! k))
  ∧ (∀ c rest, calls = c :: rest → sessions st !! k = None →
       (upload c.1 c.2 st).2.(sessions) !! k
       = Some {| files := [] ++ saved_of c.2; createdAt := c.1 |})
  ∧ (∀ i c, calls !! i = Some c →
       out.1 !! i
       = Some (upload_reply k (length (saved_of c.2))
                 (length (old ++ concat (map (λ c, saved_of c.2)
                                           (take (S i) calls)))))).
Proof.
  intros Hk. cbv zeta. revert st.
  induction Hk as [| [now req] rest Hc Hrest IH]; intros st.
  - simpl. rewrite app_nil_r. repeat split; try done.
  - simpl in Hc. simpl uploads. rewrite upload_step, Hc.
    set (st1 := {| sessions := _; disk := _ |}).
    specialize (IH st1). cbv zeta in IH.
    destruct (uploads rest st1) as [rs st2] eqn:Hrs.
    cbn [fst snd] in IH |- *. destruct IH as (Hfiles & Hsome & _ & Hreplies).
    assert (Hst1 : files_of (sessions st1) k
                   = files_of (sessions st) k ++ saved_of req)
      by (unfold st1; simpl; by rewrite files_of_insert).
    rewrite Hst1 in Hfiles, Hreplies.
    split; [simpl; by rewrite Hfiles, app_assoc |].
    split.
    { intros _. destruct rest as [| c' rest'].
      - simpl in Hrs. injection Hrs as <- <-. unfold st1. simpl.
        rewrite lookup_insert_eq. eauto.
      - by apply Hsome. }
    split.
    { intros c rest' Heq Hnone. injection Heq as <- <-. simpl.
      rewrite upload_step. simpl. rewrite Hc, lookup_insert_eq.
      unfold files_of, created. by rewrite Hnone. }
    intros [| i] c Hi; simpl in Hi |- *.
    + injection Hi as <-. simpl. by rewrite app_nil_r.
    + rewrite (Hreplies i c Hi). by rewrite app_assoc.
Qed.

(** Two requests for the key ["abc"]: two photos, then three. *)
Definition photo (now : N) (original : string) : file :=
  store now "abc" original "image/jpeg" 1000.

Definition two_then_three : list (N * request) :=
  [(10, with_ids None (Some (Js.VStr "abc"))
          (Some [photo 10 "a.jpg"; photo 11 "b.jpg"]));
   (20, with_ids (Some (Js.VStr "abc")) None
          (Some [photo 20 "c.jpg"; photo 21 "d.jpg"; photo 22 "e.jpg"]))].

Lemma C5_uploads_accumulate_witness :
  files_of (sessions (uploads two_then_three (State ∅ ∅)).2) "abc"
  = ["/tmp/uploads/abc/10-a.jpg"; "/tmp/uploads/abc/11-b.jpg";
     "/tmp/uploads/abc/20-c.jpg"; "/tmp/uploads/abc/21-d.jpg";
     "/tmp/uploads/abc/22-e.jpg"]
  ∧ (uploads two_then_three (State ∅ ∅)).1 !! 1%nat
    = Some (upload_reply "abc" 3 5).
Proof.
  assert (Hk : Forall (λ c : N * request, getChatId c.2 = "abc")
                 two_then_three)
    by (repeat constructor).
  destruct (C5_uploads_accumulate "abc" two_then_three (State ∅ ∅) Hk)
    as (Hfiles & _ & _ & Hreplies).
  split.
  - rewrite Hfiles. reflexivity.
  - rewrite (Hreplies 1%nat _ eq_refl). reflexivity.
Defined.

(** C9: an upload request without files is answered [ok: true] with
    [recibidasAhora = 0]; it inserts an empty session when the key had
    none and leaves an existing session as it was. *)
Theorem C9_upload_without_files (now : N) (req : request) (st : state) :
  default [] (Http.files req) = [] →
  let k := getChatId req in
  let out := upload now req st in
  out.1 = upload_reply k 0 (length (files_of (sessions st) k))
  ∧ (sessions st !! k = None →
       sessions out.2
       = <[k := {| files := []; createdAt := now |}]> (sessions st))
  ∧ (is_Some (sessions st !! k) → sessions out.2 = sessions st)
  ∧ disk out.2 = disk st.
Proof.
  intros Hnone. cbv zeta. rewrite upload_step.
  unfold saved_of. rewrite Hnone. simpl. rewrite !app_nil_r.
  split; [reflexivity |]. split; [| split; [| reflexivity]].
  - intros Hk. unfold files_of, created. by rewrite Hk.
  - intros [[fs t] Hk]. unfold files_of, created. rewrite Hk. simpl.
    by apply insert_id.
Qed.

Definition empty_upload : request :=
  with_ids None (Some (Js.VStr "abc")) (Some []).

Lemma C9_upload_without_files_witness :
  (upload 7 empty_upload (State ∅ ∅)).1 = upload_reply "abc" 0 0
  ∧ sessions (upload 7 empty_upload (State ∅ ∅)).2
    = {["abc" := {| files := []; createdAt := 7 |}]}.
Proof.
  destruct (C9_upload_without_files 7 empty_upload (State ∅ ∅) eq_refl)
    as (Hr & Hins & _ & _).
  split.
  - exact Hr.
  - rewrite (Hins eq_refl). reflexivity.
Defined.

Definition build_failed : response :=
  RJson 500 [("ok", JBool false);
             ("error", JStr "No se pudo generar el ZIP.")].

Definition no_photos : response :=
  RJson 400 [("ok", JBool false);
             ("error", JStr "No hay fotos cargadas para este chatId.")].

(** C1: a build for a key whose session has files removes the session
    when the archive is built, and leaves the registry, hence the session
    and its file list, as it was when the archiver fails. *)
Theorem C1_build_consumes_or_preserves (now : N) (req : request)
    (zip : zip_outcome) (st : state) (s : session) :
  sessions st !! getChatId req = Some s →
  files s ≠ [] →
  let k := getChatId req in
  let out := comprimir now req zip st in
  (resolved zip = true →
     sessions out.2 = delete k (sessions st)
     ∧ sessions out.2 !! k = None
     ∧ ∃ outPath outName, out.1 = RDownload outPath outName)
  ∧ (resolved zip = false →
     sessions out.2 = sessions st
     ∧ sessions out.2 !! k = Some s
     ∧ out.1 = build_failed).
Proof.
  intros Hs Hne. cbv zeta. unfold comprimir, ensureSession, compressZIP.
  rewrite Hs. destruct (files s) as [| f fs] eqn:Hfs; [done |].
  destruct zip as [| msg created]; simpl; split; intros Hz; try done.
  split; [reflexivity |]. rewrite lookup_delete_eq. eauto.
Qed.

Definition one_photo : state :=
  State {["abc" := {| files := ["/tmp/uploads/abc/10-a.jpg"];
                      createdAt := 10 |}]}
        {["/tmp/uploads/abc/10-a.jpg" := Blob]}.

Definition build_abc : request :=
  with_ids None (Some (Js.VStr "abc")) None.

Lemma C1_build_consumes_or_preserves_witness :
  sessions (comprimir 30 build_abc ZipClosed one_photo).2 !! "abc" = None
  ∧ sessions (comprimir 30 build_abc (ZipError "EIO" true) one_photo).2
    = sessions one_photo.
Proof.
  assert (Hne : files {| files := ["/tmp/uploads/abc/10-a.jpg"];
                         createdAt := 10 |} ≠ []) by discriminate.
  split.
  - destruct (C1_build_consumes_or_preserves 30 build_abc ZipClosed
                one_photo _ eq_refl Hne) as [Hok _].
    destruct (Hok eq_refl) as (_ & Hgone & _). exact Hgone.
  - destruct (C1_build_consumes_or_preserves 30 build_abc
                (ZipError "EIO" true) one_photo _ eq_refl Hne) as [_ Hko].
    destruct (Hko eq_refl) as (Hsame & _). exact Hsame.
Defined.

(** C2 as stated fails: a build for a key that has no session is
    rejected, but [ensureSession] has put an empty session into the
    registry by then. *)
Lemma C2_absent_key_registry_changes :
  sessions (State ∅ ∅) !! getChatId build_abc = None
  ∧ (comprimir 30 build_abc ZipClosed (State ∅ ∅)).1 = no_photos
  ∧ sessions (comprimir 30 build_abc ZipClosed (State ∅ ∅)).2
    ≠ sessions (State ∅ ∅).
Proof.
  split; [reflexivity |]. split; [reflexivity |].
  intros Hs.
  apply (f_equal (λ m : gmap string session, m !! "abc")) in Hs.
  vm_compute in Hs. discriminate Hs.
Qed.

(** C2, amended: a build for a key without files is answered 400 and
    leaves the disk as it was, so no archive is written. A session that
    exists with an empty list leaves the registry unchanged; a key
    without a session gets an empty one, created now. Either way every
    key has the file list it had. *)
Theorem C2_build_without_files (now : N) (req : request)
    (zip : zip_outcome) (st : state) :
  files_of (sessions st) (getChatId req) = [] →
  let k := getChatId req in
  let out := comprimir now req zip st in
  out.1 = no_photos
  ∧ disk out.2 = disk st
  ∧ (is_Some (sessions st !! k) → sessions out.2 = sessions st)
  ∧ (sessions st !! k = None →
       sessions out.2
       = <[k := {| files := []; createdAt := now |}]> (sessions st))
  ∧ (∀ k', files_of (sessions out.2) k' = files_of (sessions st) k').
Proof.
  intros Hempty. cbv zeta.
  assert (Hout : comprimir now req zip st
                 = (no_photos,
                    {| sessions :=
                         (ensureSession now (getChatId req) (sessions st)).2;
                       disk := disk st |})).
  { unfold comprimir.
    pose proof (ensureSession_fst now (getChatId req) (sessions st)) as Hfst.
    destruct (ensureSession now (getChatId req) (sessions st)) as [s m].
    simpl in Hfst. subst s. simpl. by rewrite Hempty. }
  rewrite Hout. simpl.
  split; [reflexivity |]. split; [reflexivity |].
  split; [| split].
  - intros [s Hs]. unfold ensureSession. by rewrite Hs.
  - intros Hs. unfold ensureSession. by rewrite Hs.
  - intros k'. apply ensureSession_files.
Qed.

Lemma C2_build_without_files_witness :
  (comprimir 30 build_abc ZipClosed (State ∅ ∅)).1 = no_photos
  ∧ sessions (comprimir 30 build_abc ZipClosed (State ∅ ∅)).2
    = {["abc" := {| files := []; createdAt := 30 |}]}.
Proof.
  assert (Hnone : files_of (sessions (State ∅ ∅)) (getChatId build_abc) = [])
    by reflexivity.
  destruct (C2_build_without_files 30 build_abc ZipClosed (State ∅ ∅)
              Hnone) as (Hr & _ & _ & Hins & _).
  split.
  - exact Hr.
  - rewrite (Hins eq_refl). reflexivity.
Defined.

End RegistryFacts.

(** ** Strings and paths *)

Module PathFacts.
Import Path.

Lemma app_cons c s t : String c s +:+ t = String c (s +:+ t).
Proof. reflexivity. Qed.

Lemma app_empty_l s : "" +:+ s = s.
Proof. reflexivity. Qed.

Lemma app_assoc' (a b c : string) : (a +:+ b) +:+ c = a +:+ (b +:+ c).
Proof. induction a as [| x a IH]; [done |]. by rewrite !app_cons, IH. Qed.

Lemma app_not_empty_r (a b : string) : b ≠ "" → a +:+ b ≠ "".
Proof. intros Hb. destruct a; [done |]. by rewrite app_cons. Qed.

(** A separator occurs in the string. *)
Fixpoint has_sep (s : string) : bool :=
  match s with
  | EmptyString => false
  | String c s' => is_sep c || has_sep s'
  end.

(** A file name proper: not empty, no separator, neither ["."] nor
    [".."]. *)
Definition plain (name : string) : Prop :=
  has_sep name = false ∧ name ≠ "" ∧ name ≠ "." ∧ name ≠ "..".

Lemma has_sep_app (a b : string) :
  has_sep (a +:+ b) = has_sep a || has_sep b.
Proof.
  induction a as [| c a IH]; [done |].
  rewrite app_cons. simpl. by rewrite IH, orb_assoc.
Qed.

Lemma split_not_nil s : split s ≠ [].
Proof.
  destruct s as [| c s]; simpl; [done |].
  destruct (is_sep c); [done |]. by destruct (split s).
Qed.

Lemma split_no_sep s : has_sep s = false → split s = [s].
Proof.
  induction s as [| c s IH]; simpl; [done |].
  intros [Hc Hs]%orb_false_elim. by rewrite Hc, (IH Hs).
Qed.

Lemma split_app_sep (a b : string) :
  split (a +:+ String "/" b) = split a ++ split b.
Proof.
  induction a as [| c a IH]; [done |].
  rewrite app_cons. simpl. rewrite IH.
  destruct (is_sep c); [done |].
  pose proof (split_not_nil a). by destruct (split a).
Qed.

Lemma last_snoc {A} (l : list A) (x d : A) : List.last (l ++ [x]) d = x.
Proof. apply List.last_last. Qed.

Lemma basename_plain name : plain name → basename name = name.
Proof.
  intros (Hsep & Hne & _). unfold basename.
  rewrite (split_no_sep _ Hsep), filter_cons, filter_nil.
  by rewrite decide_True.
Qed.

Lemma basename_app_sep (a name : string) :
  plain name → basename (a +:+ String "/" name) = name.
Proof.
  intros (Hsep & Hne & _). unfold basename.
  rewrite split_app_sep, (split_no_sep _ Hsep), filter_app.
  rewrite filter_cons, filter_nil, decide_True by done. apply last_snoc.
Qed.

Lemma norm_step_plain allow stack name :
  plain name → norm_step allow stack name = name :: stack.
Proof.
  intros (_ & H0 & H1 & H2). unfold norm_step.
  apply String.eqb_neq in H0, H1, H2. by rewrite H0, H1, H2.
Qed.

Lemma join_sep_snoc (l : list string) (name : string) :
  join_sep (l ++ [name]) = name
  ∨ ∃ a, join_sep (l ++ [name]) = a +:+ String "/" name.
Proof.
  induction l as [| x l IH]; simpl; [by left |]. right.
  destruct (l ++ [name]) as [| y l'] eqn:Hl.
  { by destruct l. }
  destruct IH as [-> | [a ->]].
  - by exists x.
  - exists (x +:+ String "/" a). by rewrite !app_assoc'.
Qed.

Lemma last_is_sep_app (a b : string) :
  b ≠ "" → last_is_sep (a +:+ b) = last_is_sep b.
Proof.
  intros Hb. induction a as [| c a IH]; [done |].
  rewrite app_cons. simpl.
  pose proof (app_not_empty_r a b Hb). by destruct (a +:+ b).
Qed.

Lemma last_is_sep_no_sep s : has_sep s = false → last_is_sep s = false.
Proof.
  induction s as [| c s IH]; simpl; [done |].
  intros [Hc Hs]%orb_false_elim. destruct s; [done | by apply IH].
Qed.

(** What ends in a plain name still does after [path.normalize]. *)
Lemma normalize_ends_plain (p name : string) :
  plain name →
  (p = name ∨ ∃ a, p = a +:+ String "/" name) →
  normalize p = name ∨ ∃ a, normalize p = a +:+ String "/" name.
Proof.
  intros Hplain Hp.
  pose proof Hplain as (Hsep & Hne & _).
  assert (Hsplit : ∃ l, split p = l ++ [name]).
  { destruct Hp as [-> | [a ->]].
    - exists []. by rewrite split_no_sep.
    - exists (split a). by rewrite split_app_sep, (split_no_sep name). }
  assert (Hlast : last_is_sep p = false).
  { destruct Hp as [-> | [a ->]].
    - by apply last_is_sep_no_sep.
    - rewrite last_is_sep_app by done. simpl.
      rewrite (last_is_sep_no_sep _ Hsep). by destruct name. }
  assert (Hp0 : p ≠ "").
  { destruct Hp as [-> | [a ->]]; [done | by apply app_not_empty_r]. }
  destruct Hsplit as [l Hl].
  unfold normalize, normalizeString.
  apply String.eqb_neq in Hp0. rewrite Hp0, Hl, Hlast, fold_left_app. simpl.
  rewrite (norm_step_plain _ _ _ Hplain). simpl.
  set (kept := rev (fold_left _ l [])).
  assert (Hbody : join_sep (kept ++ [name]) ≠ "").
  { destruct (join_sep_snoc kept name) as [-> | [a ->]];
      [done | by apply app_not_empty_r]. }
  apply String.eqb_neq in Hbody. rewrite Hbody.
  destruct (join_sep_snoc kept name) as [-> | [a ->]];
    destruct (first_is_sep p).
  - right. by exists "".
  - by left.
  - right. exists ("/" +:+ a). by rewrite app_assoc'.
  - right. by exists a.
Qed.

(** The basename of a plain name joined to a directory is the name. *)
Lemma basename_join (dir name : string) :
  plain name → basename (join [dir; name]) = name.
Proof.
  intros Hplain. pose proof Hplain as (_ & Hne & _).
  assert (Hends : join [dir; name] = name
                  ∨ ∃ a, join [dir; name] = a +:+ String "/" name).
  { unfold join. rewrite !filter_cons, filter_nil.
    rewrite (decide_True (P := name ≠ "")) by done.
    destruct (decide (dir ≠ "")).
    - apply normalize_ends_plain; [done |]. right. by exists dir.
    - apply normalize_ends_plain; [done |]. by left. }
  destruct Hends as [-> | [a ->]].
  - by apply basename_plain.
  - by apply basename_app_sep.
Qed.

(** *** Joining a plain name to an absolute directory *)

Lemma sep_app (r : string) : "/" +:+ r = String "/" r.
Proof. reflexivity. Qed.

Lemma split_segments_no_sep s : Forall (λ seg, has_sep seg = false) (split s).
Proof.
  induction s as [| c s IH]; simpl; [by repeat constructor |].
  destruct (is_sep c) eqn:Hc; [by constructor |].
  destruct (split s) as [| x xs]; [by repeat constructor; simpl; rewrite Hc |].
  apply Forall_cons in IH as [Hx Hxs].
  constructor; [simpl; by rewrite Hc, Hx | done].
Qed.

Lemma norm_step_keeps_plain stack seg :
  Forall plain stack → has_sep seg = false →
  Forall plain (norm_step false stack seg).
Proof.
  intros Hstack Hseg. unfold norm_step.
  destruct (String.eqb seg "") eqn:H0; [done |].
  destruct (String.eqb seg ".") eqn:H1; [done |].
  destruct (String.eqb seg "..") eqn:H2; simpl.
  - destruct stack as [| top rest]; [done |].
    destruct (String.eqb top ".."); [done |].
    by apply Forall_cons in Hstack as [_ ?].
  - constructor; [| done].
    apply String.eqb_neq in H0, H1, H2. by repeat split.
Qed.

Lemma fold_keeps_plain (segs stack : list string) :
  Forall plain stack → Forall (λ seg, has_sep seg = false) segs →
  Forall plain (fold_left (norm_step false) segs stack).
Proof.
  intros Hstack Hsegs. revert stack Hstack.
  induction Hsegs as [| seg segs Hseg _ IH]; intros stack Hstack; simpl.
  - done.
  - by apply IH, norm_step_keeps_plain.
Qed.

Lemma fold_plain allow (segs stack : list string) :
  Forall plain segs →
  fold_left (norm_step allow) segs stack = rev segs ++ stack.
Proof.
  intros Hsegs. revert stack.
  induction Hsegs as [| seg segs Hseg _ IH]; intros stack; simpl; [done |].
  by rewrite (norm_step_plain _ _ _ Hseg), IH, <- app_assoc.
Qed.

Lemma split_join_sep (segs : list string) :
  Forall plain segs → segs ≠ [] → split (join_sep segs) = segs.
Proof.
  induction 1 as [| x segs Hx Hsegs IH]; intros Hne; [done |].
  destruct segs as [| y segs].
  - simpl. apply split_no_sep, Hx.
  - change (join_sep (x :: y :: segs))
      with (x +:+ String "/" (join_sep (y :: segs))).
    rewrite split_app_sep, IH by done.
    by rewrite (split_no_sep x) by apply Hx.
Qed.

Lemma join_sep_app_snoc (segs : list string) (name : string) :
  segs ≠ [] → join_sep (segs ++ [name]) = join_sep segs +:+ String "/" name.
Proof.
  induction segs as [| x segs IH]; intros Hne; [done |].
  destruct segs as [| y segs]; [done |].
  change (join_sep ((x :: y :: segs) ++ [name]))
    with (x +:+ String "/" (join_sep ((y :: segs) ++ [name]))).
  rewrite IH by done.
  change (join_sep (x :: y :: segs))
    with (x +:+ String "/" (join_sep (y :: segs))).
  by rewrite app_assoc', app_cons.
Qed.

Lemma starts_with_app (a b : string) : Js.starts_with a (a +:+ b) = true.
Proof.
  induction a as [| c a IH]; [done |].
  rewrite app_cons. simpl. by rewrite Ascii.eqb_refl, IH.
Qed.

(** An absolute path followed by a plain name normalises to the kept
    segments of the path, all plain, followed by the name. *)
Lemma normalize_absolute_plain (p name : string) :
  first_is_sep p = true → plain name →
  ∃ segs, Forall plain segs
          ∧ normalize (p +:+ String "/" name)
            = "/" +:+ join_sep (segs ++ [name]).
Proof.
  intros Habs Hplain. pose proof Hplain as (Hsep & Hne & _).
  destruct p as [| c p]; [done |]. simpl in Habs.
  exists (rev (fold_left (norm_step false) (split (String c p)) [])).
  split.
  { apply Forall_rev, fold_keeps_plain; [done | apply split_segments_no_sep]. }
  set (q := String c p +:+ String "/" name).
  assert (Hq0 : String.eqb q "" = false) by done.
  assert (Hfirst : first_is_sep q = true) by done.
  assert (Hlast : last_is_sep q = false).
  { unfold q. rewrite last_is_sep_app by done. simpl.
    rewrite (last_is_sep_no_sep _ Hsep). by destruct name. }
  assert (Hsplit : split q = split (String c p) ++ [name]).
  { unfold q. by rewrite split_app_sep, (split_no_sep name). }
  unfold normalize, normalizeString.
  rewrite Hq0, Hfirst, Hlast, Hsplit, fold_left_app.
  cbn [negb fold_left]. rewrite (norm_step_plain _ _ _ Hplain). cbn [rev].
  set (segs := rev (fold_left _ _ [])).
  assert (Hbody : join_sep (segs ++ [name]) ≠ "").
  { destruct (join_sep_snoc segs name) as [-> | [a ->]];
      [done | by apply app_not_empty_r]. }
  apply String.eqb_neq in Hbody. by rewrite Hbody.
Qed.

(** Joining a plain name to a normalised absolute directory appends it. *)
Lemma normalize_plain_segments (segs : list string) (name : string) :
  Forall plain segs → segs ≠ [] → plain name →
  normalize (("/" +:+ join_sep segs) +:+ String "/" name)
  = ("/" +:+ join_sep segs) +:+ String "/" name.
Proof.
  intros Hsegs Hne Hplain. pose proof Hplain as (Hsep & Hname & _).
  set (q := ("/" +:+ join_sep segs) +:+ String "/" name).
  assert (Hq0 : String.eqb q "" = false) by done.
  assert (Hfirst : first_is_sep q = true) by done.
  assert (Hlast : last_is_sep q = false).
  { unfold q. rewrite last_is_sep_app by done. simpl.
    rewrite (last_is_sep_no_sep _ Hsep). by destruct name. }
  assert (Hsplit : split q = "" :: segs ++ [name]).
  { unfold q. rewrite sep_app, app_cons. simpl split.
    by rewrite split_app_sep, split_join_sep, (split_no_sep name). }
  assert (Hall : Forall plain (segs ++ [name]))
    by (apply Forall_app; split; [done | by constructor]).
  unfold normalize, normalizeString.
  rewrite Hq0, Hfirst, Hlast, Hsplit.
  cbn [negb fold_left]. change (norm_step false [] "") with (@nil string).
  rewrite (fold_plain false _ [] Hall), app_nil_r, rev_involutive.
  rewrite join_sep_app_snoc by done.
  assert (Hbody : join_sep segs +:+ String "/" name ≠ "")
    by by apply app_not_empty_r.
  apply String.eqb_neq in Hbody. rewrite Hbody.
  unfold q. by rewrite app_assoc'.
Qed.

(** A plain name joined to a directory that is itself the join of an
    absolute path and a plain name lies strictly below that directory. *)
Lemma join_plain_inside (root sub name : string) :
  first_is_sep root = true → plain sub → plain name →
  join [join [root; sub]; name] = join [root; sub] +:+ "/" +:+ name
  ∧ inside (join [root; sub]) (join [join [root; sub]; name]) = true.
Proof.
  intros Habs Hsub Hname.
  pose proof Hsub as (_ & Hsub0 & _). pose proof Hname as (_ & Hname0 & _).
  assert (Hroot : root ≠ "") by by destruct root.
  destruct (normalize_absolute_plain root sub Habs Hsub) as (segs & Hsegs & Hdir).
  assert (Hjoin : join [root; sub] = "/" +:+ join_sep (segs ++ [sub])).
  { unfold join. rewrite !filter_cons, filter_nil.
    rewrite !decide_True by done. exact Hdir. }
  assert (Hinner : join [join [root; sub]; name]
                   = join [root; sub] +:+ "/" +:+ name).
  { unfold join at 1. rewrite !filter_cons, filter_nil.
    rewrite (decide_True (P := name ≠ "")) by done.
    rewrite decide_True by (rewrite Hjoin; by rewrite sep_app).
    rewrite Hjoin.
    apply (normalize_plain_segments (segs ++ [sub]) name); [| | done].
    - apply Forall_app. split; [done | by constructor].
    - by destruct segs. }
  split; [exact Hinner |].
  rewrite Hinner. unfold inside.
  rewrite <- app_assoc'. apply starts_with_app.
Qed.

(** *** The functions on the examples of Node's documentation *)

Example normalize_doc :
  normalize "/foo/bar//baz/asdf/quux/.." = "/foo/bar/baz/asdf".
Proof. reflexivity. Qed.

Example join_doc :
  join ["/foo"; "bar"; "baz/asdf"; "quux"; ".."] = "/foo/bar/baz/asdf".
Proof. reflexivity. Qed.

Example basename_doc : basename "/foo/bar/baz/asdf/quux.html" = "quux.html".
Proof. reflexivity. Qed.

Example extname_doc :
  map extname ["index.html"; "index.coffee.md"; "index."; "index"; ".index";
               ".index.md"]
  = [".html"; ".md"; "."; ""; ""; ".md"].
Proof. reflexivity. Qed.

End PathFacts.

(** ** Generated storage names *)

Module NameFacts.
Import Path PathFacts.

(** The characters of the class [[A-Za-z0-9._-]], as the specification
    lists them. *)
Definition safe_alphabet : string :=
  "ABCDEFGHIJKLMNOPQRSTUVWXYZabcdefghijklmnopqrstuvwxyz0123456789._-".

Definition in_alphabet (c : ascii) : bool :=
  existsb (Ascii.eqb c) (list_ascii_of_string safe_alphabet).

(** What the specification asks of one character. *)
Definition sanitized (c : ascii) : ascii :=
  if in_alphabet c then c else "_"%char.

(** The ranges the code tests are exactly that class. *)
Lemma is_safe_char_alphabet c : Js.is_safe_char c = in_alphabet c.
Proof. destruct c as [[] [] [] [] [] [] [] []]; reflexivity. Qed.

Lemma safe_char_not_sep c : Js.is_safe_char c = true → is_sep c = false.
Proof. destruct c as [[] [] [] [] [] [] [] []]; intros H; done. Qed.

Lemma replace_unsafe_length s :
  String.length (Js.replace_unsafe s) = String.length s.
Proof. induction s as [| c s IH]; simpl; [done | by rewrite IH]. Qed.

Lemma replace_unsafe_get s (i : nat) :
  String.get i (Js.replace_unsafe s) = sanitized <$> String.get i s.
Proof.
  revert i. induction s as [| c s IH]; intros i; simpl; [done |].
  destruct i as [| i]; simpl.
  - unfold sanitized. by rewrite is_safe_char_alphabet.
  - apply IH.
Qed.

Lemma replace_unsafe_no_sep s : has_sep (Js.replace_unsafe s) = false.
Proof.
  induction s as [| c s IH]; simpl; [done |]. rewrite IH, orb_false_r.
  destruct (Js.is_safe_char c) eqn:Hc; [by apply safe_char_not_sep | done].
Qed.

Lemma decimal_no_sep n : has_sep (Js.decimal n) = false.
Proof.
  unfold Js.decimal. induction (N.to_uint n) as [| d IH | d IH | d IH
    | d IH | d IH | d IH | d IH | d IH | d IH | d IH]; simpl; done.
Qed.

(** The storage name of the session variant is a file name proper. *)
Lemma storage_filename_plain now original :
  plain (Session.storage_filename now original).
Proof.
  unfold plain, Session.storage_filename. split.
  - rewrite !has_sep_app, decimal_no_sep, replace_unsafe_no_sep. done.
  - unfold Js.decimal.
    destruct (N.to_uint now); simpl NilEmpty.string_of_uint;
      rewrite ?app_empty_l, ?app_cons; repeat split; discriminate.
Qed.

(** *** Reading a storage name back

    What a reader of the upload directory gets out of a name: the digits
    it starts with as a number, and what follows the dash. *)

Definition is_digit (c : ascii) : bool :=
  let n := N_of_ascii c in (48 <=? n) && (n <=? 57).

Fixpoint all_digits (s : string) : bool :=
  match s with
  | EmptyString => true
  | String c s' => is_digit c && all_digits s'
  end.

Definition starts_digit (s : string) : bool :=
  match s with
  | EmptyString => false
  | String c _ => is_digit c
  end.

(** The longest prefix of digits, and what follows it. *)
Fixpoint digits_prefix (s : string) : string * string :=
  match s with
  | EmptyString => (EmptyString, EmptyString)
  | String c s' =>
      if is_digit c
      then (String c (digits_prefix s').1, (digits_prefix s').2)
      else (EmptyString, s)
  end.

(** The number a non-empty string of digits writes. *)
Definition read_number (s : string) : option N :=
  if String.eqb s "" then None
  else N.of_uint <$> NilEmpty.uint_of_string s.

(** [<digits>-<rest>]: the number and the rest. *)
Definition read_session (name : string) : option (N * string) :=
  match read_number (digits_prefix name).1, (digits_prefix name).2 with
  | Some n, String "-" rest => Some (n, rest)
  | _, _ => None
  end.

(** [<digits>-<digits><rest>]: the two numbers and the rest. *)
Definition read_stateless (name : string) : option (N * N * string) :=
  match read_session name with
  | Some (n, rest) =>
      match read_number (digits_prefix rest).1 with
      | Some k => Some (n, k, (digits_prefix rest).2)
      | None => None
      end
  | None => None
  end.

Lemma uint_all_digits (d : Decimal.uint) :
  all_digits (NilEmpty.string_of_uint d) = true.
Proof. induction d; simpl; done. Qed.

Lemma decimal_all_digits n : all_digits (Js.decimal n) = true.
Proof. apply uint_all_digits. Qed.

Lemma decimal_not_empty n : Js.decimal n ≠ "".
Proof.
  unfold Js.decimal. destruct n as [| p]; [done |].
  change (N.to_uint (N.pos p)) with (Pos.to_uint p).
  pose proof (DecimalPos.Unsigned.to_uint_nonnil p) as Hnil.
  by destruct (Pos.to_uint p).
Qed.

(** The digits the code writes read back as the number written. *)
Lemma read_number_decimal n : read_number (Js.decimal n) = Some n.
Proof.
  unfold read_number.
  destruct (String.eqb_spec (Js.decimal n) "") as [He | _].
  - by destruct (decimal_not_empty n).
  - unfold Js.decimal. rewrite NilEmpty.usu. simpl.
    by rewrite DecimalN.Unsigned.of_to.
Qed.

Lemma digits_prefix_app (d r : string) :
  all_digits d = true → starts_digit r = false →
  digits_prefix (d +:+ r) = (d, r).
Proof.
  intros Hd Hr. induction d as [| c d IH].
  - rewrite app_empty_l. destruct r as [| c r]; [done |].
    simpl in *. by rewrite Hr.
  - simpl in Hd. apply andb_true_iff in Hd as [Hc Hd].
    rewrite app_cons. simpl. rewrite Hc, (IH Hd). done.
Qed.

Lemma last_dot_starts (s e : string) (b : bool) :
  last_dot s = Some (e, b) → starts_digit e = false.
Proof.
  revert e b. induction s as [| c s IH]; intros e b; simpl; [done |].
  destruct (last_dot s) as [[e' b'] |].
  - intros [= <- <-]. by apply (IH e' b').
  - destruct (Ascii.eqb_spec c "."); [| done]. intros [= <- <-]. by subst c.
Qed.

Lemma extname_no_digit (p : string) : starts_digit (extname p) = false.
Proof.
  unfold extname.
  destruct (last_dot (basename p)) as [[e b] |] eqn:Hdot; [| done].
  destruct (b || String.eqb (basename p) ".."); [done |].
  by apply (last_dot_starts _ _ _ Hdot).
Qed.

(** C8: the storage name of the session variant is the millisecond clock,
    a dash and the original name with every character outside
    [[A-Za-z0-9._-]] replaced by an underscore and every other character
    kept in place; the storage name of the stateless variant is the
    clock, a dash, the random integer and the extension of the original
    name. Both names read back: the digits before the dash are the clock,
    and what follows is the sanitized name, or the digits of the random
    integer and the extension. *)
Theorem C8_storage_names (now rnd : N) (original : string) :
  Session.storage_filename now original
  = Js.decimal now +:+ "-" +:+ Js.replace_unsafe original
  ∧ String.length (Js.replace_unsafe original) = String.length original
  ∧ (∀ i : nat, String.get i (Js.replace_unsafe original)
                = sanitized <$> String.get i original)
  ∧ Stateless.storage_filename now rnd original
    = Js.decimal now +:+ "-" +:+ Js.decimal rnd +:+ extname original
  ∧ read_session (Session.storage_filename now original)
    = Some (now, Js.replace_unsafe original)
  ∧ read_stateless (Stateless.storage_filename now rnd original)
    = Some (now, rnd, extname original).
Proof.
  split; [reflexivity |]. split; [apply replace_unsafe_length |].
  split; [apply replace_unsafe_get |]. split; [reflexivity |].
  assert (Hread : ∀ rest,
            read_session (Js.decimal now +:+ "-" +:+ rest) = Some (now, rest)).
  { intros rest. unfold read_session.
    rewrite (digits_prefix_app (Js.decimal now) ("-" +:+ rest))
      by (apply decimal_all_digits || reflexivity).
    cbn [fst snd]. by rewrite read_number_decimal. }
  split; [apply Hread |].
  unfold read_stateless, Stateless.storage_filename. rewrite Hread.
  rewrite (digits_prefix_app (Js.decimal rnd) (extname original))
    by (apply decimal_all_digits || apply extname_no_digit).
  cbn [fst snd]. by rewrite read_number_decimal.
Qed.

Example storage_name_session :
  Session.storage_filename 1700000000123 "mi foto (1).JPG"
  = "1700000000123-mi_foto__1_.JPG".
Proof. reflexivity. Qed.

Example storage_name_stateless :
  Stateless.storage_filename 1700000000123 482913 "mi foto (1).JPG"
  = "1700000000123-482913.JPG".
Proof. reflexivity. Qed.

End NameFacts.

(** ** Archive members *)

Module ArchiveFacts.
Import Http Fs PathFacts.

(** One upload of the session variant: the clock, the key, and the
    file's original name, type and size. *)
Record sent := Sent {
  sent_at : N;
  sent_key : string;
  sent_name : string;
  sent_type : string;
  sent_size : N;
}.

Definition stored_as (u : sent) : file :=
  Session.store (sent_at u) (sent_key u) (sent_name u) (sent_type u)
                (sent_size u).

Lemma session_entry_name (u : sent) :
  Path.basename (path (stored_as u))
  = Session.storage_filename (sent_at u) (sent_name u).
Proof.
  unfold stored_as, Session.store. simpl.
  apply basename_join, NameFacts.storage_filename_plain.
Qed.

Lemma stateless_entry_names (fs : list file) :
  Forall (λ f, originalname f ≠ "") fs →
  map snd (Stateless.zip_members fs) = map originalname fs.
Proof.
  unfold Stateless.zip_members. rewrite map_map. simpl.
  induction 1 as [| f fs Hf _ IH]; simpl; [done |].
  rewrite IH. unfold Stateless.entry_name.
  apply String.eqb_neq in Hf. by rewrite Hf.
Qed.

Lemma session_entry_names (ups : list sent) :
  map snd (Session.zip_members (map path (map stored_as ups)))
  = map (λ u, Session.storage_filename (sent_at u) (sent_name u)) ups.
Proof.
  unfold Session.zip_members. rewrite !map_map.
  apply map_ext. intros u. apply session_entry_name.
Qed.

Definition img : sent := Sent 10 "abc" "IMG 1.jpg" "image/jpeg" 1000.

(** C4 as stated fails in the session variant: the session keeps the
    storage paths only, and the archive built from them names its entry
    after the storage name, not after the original name. *)
Lemma C4_session_entry_not_original :
  Session.disk (Session.comprimir 30 (with_ids None (Some (Js.VStr "abc")) None)
          ZipClosed
          (Session.upload 10
             (with_ids None (Some (Js.VStr "abc"))
                (Some [stored_as img]))
             (Session.State ∅ ∅)).2).2
    !! "/tmp/paquetes/fotos_abc_30.zip"
  = Some (Archive [("/tmp/uploads/abc/10-IMG_1.jpg", "10-IMG_1.jpg")])
  ∧ originalname (stored_as img) = "IMG 1.jpg"
  ∧ "10-IMG_1.jpg" ≠ originalname (stored_as img).
Proof. split; [by vm_compute | split; [reflexivity | discriminate]]. Qed.

(** C4, amended: in the stateless variant the archive holds every file
    under its original name (files with a non-empty one); in the session
    variant it holds every file under its storage name, the clock and
    the sanitised original name. *)
Theorem C4_entry_names :
  (∀ (fs : list file) (outputPath : string) (d : gmap string stored),
     Forall (λ f, originalname f ≠ "") fs →
     ∃ members,
       (Stateless.createZip fs outputPath ZipClosed d).2 !! outputPath
       = Some (Archive members)
       ∧ map fst members = map path fs
       ∧ map snd members = map originalname fs)
  ∧ (∀ (ups : list sent) (outPath : string) (d : gmap string stored),
     ∃ members,
       (Session.compressZIP outPath (map path (map stored_as ups))
          ZipClosed d).2 !! outPath
       = Some (Archive members)
       ∧ map fst members = map path (map stored_as ups)
       ∧ map snd members
         = map (λ u, Session.storage_filename (sent_at u) (sent_name u))
               ups).
Proof.
  split.
  - intros fs outputPath d Hfs. exists (Stateless.zip_members fs).
    split; [apply lookup_insert_eq |].
    split; [| by apply stateless_entry_names].
    unfold Stateless.zip_members. by rewrite map_map.
  - intros ups outPath d.
    exists (Session.zip_members (map path (map stored_as ups))).
    split; [apply lookup_insert_eq |].
    split; [| apply session_entry_names].
    unfold Session.zip_members. rewrite (map_map _ fst). apply map_id.
Qed.

Definition report : file :=
  File "informe final.pdf" "application/pdf" "20-77.pdf"
       "/app/uploads/20-77.pdf" 5000.

Lemma C4_entry_names_witness :
  (∃ members,
     (Stateless.createZip [report] "/app/paquetes/archivos-21.zip"
        ZipClosed ∅).2 !! "/app/paquetes/archivos-21.zip"
     = Some (Archive members)
     ∧ map fst members = ["/app/uploads/20-77.pdf"]
     ∧ map snd members = ["informe final.pdf"])
  ∧ (∃ members,
     (Session.compressZIP "/tmp/paquetes/fotos_abc_30.zip"
        [path (stored_as img)] ZipClosed ∅).2
       !! "/tmp/paquetes/fotos_abc_30.zip"
     = Some (Archive members)
     ∧ map snd members = ["10-IMG_1.jpg"]).
Proof.
  destruct C4_entry_names as [Hstateless Hsession]. split.
  - assert (Hnames : Forall (λ f, originalname f ≠ "") [report])
      by (repeat constructor; discriminate).
    destruct (Hstateless [report] "/app/paquetes/archivos-21.zip" ∅ Hnames)
      as (members & Hm & Hsrc & Hnm).
    exists members. repeat split; assumption.
  - destruct (Hsession [img] "/tmp/paquetes/fotos_abc_30.zip" ∅)
      as (members & Hm & _ & Hnm).
    exists members. split; assumption.
Defined.

End ArchiveFacts.

(** ** Delivery *)

Module DeliveryFacts.
Import Http Fs.

Definition not_found : response :=
  RJson 404 [("success", JBool false);
             ("error", JStr "Archivo no encontrado");
             ("code", JStr "FILE_NOT_FOUND")].

(** A name whose joined path is not on the disk is answered 404. *)
Lemma descargar_missing (dir name : string) (d : gmap string stored) :
  d !! Path.join [Stateless.OUTPUT_DIR dir; name] = None →
  Stateless.descargar dir name d = not_found.
Proof.
  intros Hnone. unfold Stateless.descargar, existsSync.
  rewrite Hnone, bool_decide_eq_false_2; [done |].
  by intros [? ?].
Qed.

(** An existing path is served, wherever the join put it. *)
Lemma descargar_served (dir name : string) (d : gmap string stored) :
  is_Some (d !! Path.join [Stateless.OUTPUT_DIR dir; name]) →
  Stateless.descargar dir name d
  = RDownload (Path.join [Stateless.OUTPUT_DIR dir; name]) name.
Proof.
  intros Hsome. unfold Stateless.descargar, existsSync.
  by rewrite bool_decide_eq_true_2.
Qed.

(** A plain file name stays inside the output directory: it is answered
    404 or served from below [OUTPUT_DIR]. *)
Lemma descargar_plain_name (dir name : string) (d : gmap string stored) :
  Path.first_is_sep dir = true → PathFacts.plain name →
  Stateless.descargar dir name d = not_found
  ∨ ∃ p, Stateless.descargar dir name d = RDownload p name
         ∧ Path.inside (Stateless.OUTPUT_DIR dir) p = true.
Proof.
  intros Habs Hname.
  assert (Hsub : PathFacts.plain "paquetes") by (by repeat split).
  destruct (PathFacts.join_plain_inside dir "paquetes" name Habs Hsub Hname)
    as [_ Hinside].
  destruct (d !! Path.join [Stateless.OUTPUT_DIR dir; name]) as [x |] eqn:Hd.
  - right. eexists. split; [apply descargar_served; by rewrite Hd |].
    exact Hinside.
  - left. by apply descargar_missing.
Qed.

(** The application installed in [/app], with its own source file next
    to the two directories. *)
Definition app_disk : gmap string stored :=
  {["/app/index.js" := Blob;
    "/app/paquetes/archivos-21.zip" := Archive []]}.

(** C3 fails on the code: the route parameter [../index.js] (sent as
    [..%2Findex.js]) is joined to the output directory and normalised to
    a path outside of it, which exists and is served. *)
Theorem C3_descargar_leaves_output_dir :
  Stateless.OUTPUT_DIR "/app" = "/app/paquetes"
  ∧ Path.join [Stateless.OUTPUT_DIR "/app"; "../index.js"] = "/app/index.js"
  ∧ Path.inside (Stateless.OUTPUT_DIR "/app") "/app/index.js" = false
  ∧ Stateless.descargar "/app" "../index.js" app_disk
    = RDownload "/app/index.js" "../index.js".
Proof. repeat split; by vm_compute. Qed.

Example descargar_archive :
  Stateless.descargar "/app" "archivos-21.zip" app_disk
  = RDownload "/app/paquetes/archivos-21.zip" "archivos-21.zip".
Proof. by vm_compute. Qed.

Example descargar_unknown :
  Stateless.descargar "/app" "archivos-99.zip" app_disk = not_found.
Proof. by vm_compute. Qed.

End DeliveryFacts.

(** ** The disk *)

Module DiskFacts.
Import Http Fs Stateless.

Lemma cleanupFiles_lookup (fs : list file) (d : gmap string stored)
    (p : string) :
  cleanupFiles fs d !! p = if decide (p ∈ map path fs) then None else d !! p.
Proof.
  induction fs as [| f fs IH]; simpl.
  - done.
  - destruct (decide (path f = p)) as [<- | Hne].
    + rewrite lookup_delete_eq, decide_True; [done | by left].
    + rewrite lookup_delete_ne, IH by done.
      destruct (decide (p ∈ map path fs)) as [Hin | Hout].
      * rewrite decide_True; [done | by right].
      * rewrite decide_False; [done |].
        intros [Heq | Hin]%elem_of_cons; [by subst | done].
Qed.

Lemma write_archive_keeps outPath members zip (d : gmap string stored) p :
  is_Some (d !! p) → is_Some (write_archive outPath members zip d !! p).
Proof.
  intros Hp. destruct zip as [| msg []]; simpl; [| | done];
    (destruct (decide (outPath = p)) as [-> | Hne];
     [rewrite lookup_insert_eq; eauto | by rewrite lookup_insert_ne]).
Qed.

Lemma existsSync_true (d : gmap string stored) p :
  existsSync d p = true ↔ is_Some (d !! p).
Proof. unfold existsSync. apply bool_decide_eq_true. Qed.

End DiskFacts.

(** ** Upload intake of the stateless variant *)

Module IntakeFacts.
Import Http Fs Stateless DiskFacts.

(** The allow-list as the specification words it: the declared type and
    the extension are members of the list. *)
Definition listed (word : string) : bool :=
  bool_decide (word ∈ filetypes).

(** The subtype of a MIME type: what follows its slash. *)
Definition mime_subtype (mime : string) : string :=
  List.last (Path.split mime) "".

(** The extension without its dot, in lower case. *)
Definition extension (name : string) : string :=
  match Js.toLowerCase (Path.extname name) with
  | String _ ext => ext
  | EmptyString => ""
  end.

Definition on_allow_list (name mime : string) : bool :=
  listed (mime_subtype mime) && listed (extension name).

Lemma receive_cons dir (p : part) (rest : list part) (accepted : list file)
    (d : gmap string stored) :
  receive dir (p :: rest) accepted d =
    if String.eqb (announced_name p) "" then receive dir rest accepted d
    else if negb (String.eqb (fieldname p) "files")
            || (maxCount <=? length accepted)%nat then
      (inl "Unexpected field", accepted, d)
    else if negb (fileFilter (announced_name p) (announced_type p)) then
      (inl "Solo se permiten archivos de imagen, PDF o ZIP", accepted, d)
    else if fileSize_limit <=? part_size p then
      (inl "File too large", accepted, d)
    else
      receive dir rest (accepted ++ [file_of dir p])
        (<[path (file_of dir p) := Blob]> d).
Proof. reflexivity. Qed.

(** A part the filter refuses stops [receive] with an error, whatever
    was accepted before it. *)
Lemma receive_refuses dir (parts : list part) (accepted : list file)
    (d : gmap string stored) :
  Exists (λ p, announced_name p ≠ ""
               ∧ fileFilter (announced_name p) (announced_type p) = false)
         parts →
  ∃ message, (receive dir parts accepted d).1.1 = inl message.
Proof.
  intros Hex. revert accepted d.
  induction Hex as [p rest [Hname Hfilter] | p rest _ IH];
    intros accepted d; rewrite receive_cons.
  - apply String.eqb_neq in Hname. rewrite Hname, Hfilter.
    destruct (_ || _); simpl; eauto.
  - destruct (String.eqb (announced_name p) ""); [apply IH |].
    destruct (_ || _); [simpl; eauto |].
    destruct (negb _); [simpl; eauto |].
    destruct (_ <=? _); [simpl; eauto | apply IH].
Qed.

(** Whatever the filter refuses makes the whole request a 400. *)
Lemma refused_part_rejects dir dev (parts : list part) now zip
    (d : gmap string stored) :
  Exists (λ p, announced_name p ≠ ""
               ∧ fileFilter (announced_name p) (announced_type p) = false)
         parts →
  ∃ fields, (comprimir dir dev parts now zip d).1
            = [Respond (RJson 400 fields)].
Proof.
  intros Hex. unfold comprimir, upload.
  destruct (receive_refuses dir parts [] d Hex) as [message Hm].
  destruct (receive dir parts [] d) as [[result written] d'].
  simpl in Hm. subst result. simpl. eauto.
Qed.

(** What [receive] wrote: the files it accepted on top of the ones it was
    given, and nothing else on the disk changed. *)
Lemma receive_written dir (parts : list part) (accepted : list file)
    (d : gmap string stored) :
  ∃ new, (receive dir parts accepted d).1.2 = accepted ++ new
         ∧ ∀ p, p ∉ map path new →
             (receive dir parts accepted d).2 !! p = d !! p.
Proof.
  revert accepted d. induction parts as [| p rest IH]; intros accepted d.
  - exists []. simpl. by rewrite app_nil_r.
  - rewrite receive_cons.
    destruct (String.eqb (announced_name p) ""); [apply IH |].
    destruct (_ || _); [exists []; simpl; by rewrite app_nil_r |].
    destruct (negb _); [exists []; simpl; by rewrite app_nil_r |].
    destruct (_ <=? _); [exists []; simpl; by rewrite app_nil_r |].
    destruct (IH (accepted ++ [file_of dir p])
                (<[path (file_of dir p) := Blob]> d)) as (new & Hw & Hd).
    exists (file_of dir p :: new).
    split; [by rewrite Hw, <- app_assoc |].
    intros q Hq. simpl in Hq. apply not_elem_of_cons in Hq as [Hne Hq].
    rewrite (Hd q Hq). by rewrite lookup_insert_ne.
Qed.

(** A rejected request leaves no new file on the disk: what multer had
    written for it is removed before the callback runs. *)
Lemma rejected_upload_leaves_nothing dir (parts : list part)
    (d : gmap string stored) (message : string) (p : string) :
  (upload dir parts d).1 = inl message →
  d !! p = None →
  (upload dir parts d).2 !! p = None.
Proof.
  unfold upload. intros Hrej Hp.
  destruct (receive_written dir parts [] d) as (new & Hw & Hd).
  destruct (receive dir parts [] d) as [[[err | fs] written] d'];
    simpl in *; [| done].
  subst written. rewrite cleanupFiles_lookup.
  destruct (decide (p ∈ map path new)); [done |]. by rewrite Hd.
Qed.

Definition gz : part :=
  Part "files" "backup.gzip" "application/gzip" 2048 50 123456789.

Definition gz_file : file :=
  File "backup.gzip" "application/gzip" "50-123456789.gzip"
       "/app/uploads/50-123456789.gzip" 2048.

(** C6 fails on the code: the expression of [fileFilter] has no anchors,
    so a type and an extension that merely contain a listed word pass. A
    gzip file, whose subtype and extension are not on the list, is
    stored and archived, and the request succeeds. *)
Theorem C6_unlisted_type_accepted :
  on_allow_list (part_name gz) (part_type gz) = false
  ∧ fileFilter (part_name gz) (part_type gz) = true
  ∧ upload "/app" [gz] ∅
    = (inr [gz_file], {["/app/uploads/50-123456789.gzip" := Blob]})
  ∧ (comprimir "/app" false [gz] 60 ZipClosed ∅).1
    = [SetTimeout 5000 [gz_file];
       Respond (RJson 200
         [("success", JBool true);
          ("message", JStr "Archivos comprimidos exitosamente");
          ("downloadUrl", JStr "/descargar/archivos-60.zip");
          ("filename", JStr "archivos-60.zip");
          ("fileCount", JNum 1)])].
Proof. repeat split; by vm_compute. Qed.

Example filter_accepts_photo : fileFilter "playa.JPG" "image/jpeg" = true.
Proof. reflexivity. Qed.

Example filter_refuses_text : fileFilter "notas.txt" "text/plain" = false.
Proof. reflexivity. Qed.

Example filter_refuses_no_extension : fileFilter "jpeg" "image/jpeg" = false.
Proof. reflexivity. Qed.

End IntakeFacts.

(** ** Cleanup of the uploaded files in the stateless variant *)

Module CleanupFacts.
Import Http Fs Stateless DiskFacts.

(** The disk once every timer of the trace has fired. *)
Definition after_timers (trace : list effect) (d : gmap string stored)
    : gmap string stored :=
  foldr fire d trace.

(** C10: the callback of [/comprimir] schedules the deletion of the
    uploaded files only when the archive was built, 5000 ms ahead, next
    to the success response; when the archive fails the trace is the 500
    response alone, and the uploaded files are still on the disk, also
    after every timer of the request has fired. *)
Theorem C10_cleanup_only_on_success (dir : string) (dev : bool)
    (result : string + list file) (now : N) (zip : zip_outcome)
    (d : gmap string stored) :
  let out := comprimir_cb dir dev result now zip d in
  (∀ delay fs, SetTimeout delay fs ∈ out.1 →
     delay = 5000 ∧ result = inr fs ∧ fs ≠ [] ∧ resolved zip = true)
  ∧ (∀ fs, result = inr fs → fs ≠ [] → resolved zip = true →
       (∃ fields, out.1 = [SetTimeout 5000 fs; Respond (RJson 200 fields)])
       ∧ ∀ f, f ∈ fs → existsSync (after_timers out.1 out.2) (path f) = false)
  ∧ (∀ fs, result = inr fs → fs ≠ [] → resolved zip = false →
       (∃ fields, out.1 = [Respond (RJson 500 fields)])
       ∧ ∀ f, f ∈ fs → existsSync d (path f) = true →
           existsSync out.2 (path f) = true
           ∧ existsSync (after_timers out.1 out.2) (path f) = true).
Proof.
  cbv zeta. destruct result as [message | [| f0 fs0]].
  - simpl. split; [| split]; [| done | done].
    intros delay fs [Heq | Hin%elem_of_nil]%elem_of_cons; done.
  - simpl. split; [| split].
    + intros delay fs [Heq | Hin%elem_of_nil]%elem_of_cons; done.
    + intros fs [= <-]. done.
    + intros fs [= <-]. done.
  - unfold comprimir_cb, createZip.
    destruct zip as [| msg created]; simpl resolved; cbv iota beta.
    + split; [| split].
      * intros delay fs [Heq | Hin]%elem_of_cons.
        { injection Heq as -> ->. done. }
        apply elem_of_cons in Hin as [Heq | Hin%elem_of_nil]; done.
      * intros fs [= <-] _ _. split; [eauto |].
        intros f Hf. unfold after_timers. cbn [fold_right fire fst snd].
        apply not_true_is_false. rewrite existsSync_true.
        rewrite cleanupFiles_lookup, decide_True; [by intros [? ?] |].
        by apply list_elem_of_In, in_map, list_elem_of_In.
      * intros fs _ _ [=].
    + split; [| split].
      * intros delay fs [Heq | Hin%elem_of_nil]%elem_of_cons; done.
      * intros fs _ _ [=].
      * intros fs [= <-] _ _. split; [eauto |].
        intros f Hf Hex. unfold after_timers. cbn [fold_right fire fst snd].
        rewrite !existsSync_true in *.
        split; by apply write_archive_keeps.
Qed.

Definition scan : file :=
  File "scan.pdf" "application/pdf" "50-123456789.pdf"
       "/app/uploads/50-123456789.pdf" 2048.

Definition uploaded : list file := [scan].

Definition with_upload : gmap string stored :=
  {["/app/uploads/50-123456789.pdf" := Blob]}.

Lemma C10_cleanup_only_on_success_witness :
  (∃ fields,
     (comprimir_cb "/app" false (inr uploaded) 60 ZipClosed with_upload).1
     = [SetTimeout 5000 uploaded; Respond (RJson 200 fields)])
  ∧ (∃ fields,
     (comprimir_cb "/app" false (inr uploaded) 60 (ZipError "EIO" true)
        with_upload).1
     = [Respond (RJson 500 fields)])
  ∧ existsSync
      (comprimir_cb "/app" false (inr uploaded) 60 (ZipError "EIO" true)
         with_upload).2
      "/app/uploads/50-123456789.pdf" = true.
Proof.
  assert (Hne : uploaded ≠ []) by discriminate.
  split; [| split].
  - destruct (C10_cleanup_only_on_success "/app" false (inr uploaded) 60
                ZipClosed with_upload) as (_ & Hok & _).
    destruct (Hok uploaded eq_refl Hne eq_refl) as [Htrace _]. exact Htrace.
  - destruct (C10_cleanup_only_on_success "/app" false (inr uploaded) 60
                (ZipError "EIO" true) with_upload) as (_ & _ & Hko).
    destruct (Hko uploaded eq_refl Hne eq_refl) as [Htrace _]. exact Htrace.
  - destruct (C10_cleanup_only_on_success "/app" false (inr uploaded) 60
                (ZipError "EIO" true) with_upload) as (_ & _ & Hko).
    destruct (Hko uploaded eq_refl Hne eq_refl) as [_ Hkept].
    apply (Hkept scan); [by left | reflexivity].
Defined.

End CleanupFacts.


(** * Further properties of the session variant *)

Module SessionFlow.
Import Http Fs Session RegistryFacts.

(** The name and the path [/comprimir] gives the archive of a key. *)
Definition out_name (k : string) (now : N) : string :=
  "fotos_" +:+ k +:+ "_" +:+ Js.decimal now +:+ ".zip".

Definition out_path (k : string) (now : N) : string :=
  Path.join [OUTPUT_DIR; out_name k now].

(** [/comprimir] on a session that has files, in closed form. *)
Lemma comprimir_step now req zip st s :
  sessions st !! getChatId req = Some s →
  files s ≠ [] →
  comprimir now req zip st =
    let k := getChatId req in
    let d := write_archive (out_path k now) (zip_members (files s)) zip
               (disk st) in
    if resolved zip then
      (RDownload (out_path k now) (out_name k now),
       {| sessions := delete k (sessions st); disk := d |})
    else (build_failed, {| sessions := sessions st; disk := d |}).
Proof.
  intros Hs Hne. unfold comprimir, ensureSession, compressZIP.
  rewrite Hs. destruct (files s) as [| f fs]; [done |].
  by destruct zip.
Qed.

(** [/comprimir] on a key without files, in closed form. *)
Lemma comprimir_empty now req zip st :
  files_of (sessions st) (getChatId req) = [] →
  comprimir now req zip st =
    (no_photos,
     {| sessions := (ensureSession now (getChatId req) (sessions st)).2;
        disk := disk st |}).
Proof.
  intros Hempty. unfold comprimir.
  pose proof (ensureSession_fst now (getChatId req) (sessions st)) as Hfst.
  destruct (ensureSession now (getChatId req) (sessions st)) as [s m].
  simpl in Hfst. subst s. simpl. by rewrite Hempty.
Qed.

Lemma uploads_files (k : string) (calls : list (N * request)) (st : state) :
  Forall (λ c, getChatId c.2 = k) calls →
  files_of (sessions (uploads calls st).2) k
  = files_of (sessions st) k ++ concat (map (λ c, saved_of c.2) calls).
Proof.
  intros Hk. revert st.
  induction Hk as [| [now req] rest Hc _ IH]; intros st; simpl.
  - by rewrite app_nil_r.
  - simpl in Hc. rewrite upload_step, Hc.
    set (st1 := {| sessions := _; disk := _ |}).
    specialize (IH st1). destruct (uploads rest st1) as [rs st2].
    simpl in IH |- *. rewrite IH. unfold st1. simpl.
    by rewrite files_of_insert, app_assoc.
Qed.

Lemma uploads_disk (calls : list (N * request)) (st : state) :
  disk (uploads calls st).2 = disk st.
Proof.
  revert st. induction calls as [| [now req] rest IH]; intros st; simpl.
  - done.
  - rewrite upload_step.
    set (st1 := {| sessions := _; disk := _ |}).
    specialize (IH st1). by destruct (uploads rest st1) as [rs st2].
Qed.

Lemma files_of_lookup (m : gmap string session) k :
  files_of m k ≠ [] → ∃ s, m !! k = Some s ∧ files s = files_of m k.
Proof.
  unfold files_of. destruct (m !! k) as [s |]; [eauto | done].
Qed.

(** X1: [/iniciar] discards whatever the key had: the key's list is empty
    afterwards, the other keys and the disk are as before, and the uploads
    that follow leave exactly their own files in the session. *)
Theorem iniciar_starts_afresh (k : string) (now0 : N) (req0 : request)
    (calls : list (N * request)) (st : state) :
  getChatId req0 = k →
  Forall (λ c, getChatId c.2 = k) calls →
  let st1 := (iniciar now0 req0 st).2 in
  sessions st1 !! k = Some {| files := []; createdAt := now0 |}
  ∧ (∀ k', k' ≠ k → sessions st1 !! k' = sessions st !! k')
  ∧ disk st1 = disk st
  ∧ files_of (sessions (uploads calls st1).2) k
    = concat (map (λ c, saved_of c.2) calls).
Proof.
  intros Hk Hcalls. cbv zeta. unfold iniciar. rewrite Hk. simpl.
  split; [apply lookup_insert_eq |].
  split; [intros k' Hne; by rewrite lookup_insert_ne |].
  split; [reflexivity |].
  rewrite (uploads_files k) by done. simpl. by rewrite files_of_insert.
Qed.

Definition start_abc : request := with_ids None (Some (Js.VStr "abc")) None.

Lemma iniciar_starts_afresh_witness :
  files_of
    (sessions (uploads two_then_three (iniciar 5 start_abc one_photo).2).2)
    "abc"
  = ["/tmp/uploads/abc/10-a.jpg"; "/tmp/uploads/abc/11-b.jpg";
     "/tmp/uploads/abc/20-c.jpg"; "/tmp/uploads/abc/21-d.jpg";
     "/tmp/uploads/abc/22-e.jpg"].
Proof.
  assert (Hk : Forall (λ c : N * request, getChatId c.2 = "abc")
                 two_then_three)
    by (repeat constructor).
  destruct (iniciar_starts_afresh "abc" 5 start_abc two_then_three one_photo
              eq_refl Hk) as (_ & _ & _ & Hfiles).
  rewrite Hfiles. reflexivity.
Defined.

(** X2: an archive consumes its session: once a build succeeded, the next
    build for the same key is answered 400 and writes nothing, at any time
    and whatever the archiver would do. *)
Theorem second_build_rejected (now now' : N) (req : request)
    (zip' : zip_outcome) (st : state) (s : session) :
  sessions st !! getChatId req = Some s →
  files s ≠ [] →
  let st1 := (comprimir now req ZipClosed st).2 in
  (comprimir now' req zip' st1).1 = no_photos
  ∧ disk (comprimir now' req zip' st1).2 = disk st1.
Proof.
  intros Hs Hne. cbv zeta.
  rewrite (comprimir_step now req ZipClosed st s Hs Hne). simpl.
  rewrite comprimir_empty; [done |].
  unfold files_of. simpl. by rewrite lookup_delete_eq.
Qed.

Lemma second_build_rejected_witness :
  (comprimir 40 build_abc ZipClosed
     (comprimir 30 build_abc ZipClosed one_photo).2).1 = no_photos.
Proof.
  assert (Hne : files {| files := ["/tmp/uploads/abc/10-a.jpg"];
                         createdAt := 10 |} ≠ []) by discriminate.
  exact (proj1 (second_build_rejected 30 40 build_abc ZipClosed one_photo _
                  eq_refl Hne)).
Defined.

(** X3: a failed build can be retried: the session is still there, and a
    later build that succeeds writes the archive of the same files and
    only then removes the session. *)
Theorem retry_after_failure (now now' : N) (req : request) (message : string)
    (created : bool) (st : state) (s : session) :
  sessions st !! getChatId req = Some s →
  files s ≠ [] →
  let k := getChatId req in
  let st1 := (comprimir now req (ZipError message created) st).2 in
  let out := comprimir now' req ZipClosed st1 in
  out.1 = RDownload (out_path k now') (out_name k now')
  ∧ disk out.2 !! out_path k now' = Some (Archive (zip_members (files s)))
  ∧ sessions out.2 !! k = None.
Proof.
  intros Hs Hne. cbv zeta.
  rewrite (comprimir_step now req (ZipError message created) st s Hs Hne).
  simpl.
  rewrite (comprimir_step now' req ZipClosed _ s); [| exact Hs | exact Hne].
  simpl. split; [reflexivity |].
  split; [apply lookup_insert_eq | apply lookup_delete_eq].
Qed.

Lemma retry_after_failure_witness :
  disk (comprimir 40 build_abc ZipClosed
          (comprimir 30 build_abc (ZipError "EIO" true) one_photo).2).2
    !! "/tmp/paquetes/fotos_abc_40.zip"
  = Some (Archive [("/tmp/uploads/abc/10-a.jpg", "10-a.jpg")]).
Proof.
  assert (Hne : files {| files := ["/tmp/uploads/abc/10-a.jpg"];
                         createdAt := 10 |} ≠ []) by discriminate.
  destruct (retry_after_failure 30 40 build_abc "EIO" true one_photo _
              eq_refl Hne) as (_ & Hdisk & _).
  exact Hdisk.
Defined.

(** X4: the three handlers work on the session of the resolved key only:
    the sessions of all other keys are what they were. *)
Theorem handlers_keep_other_sessions (now : N) (req : request)
    (zip : zip_outcome) (st : state) (k' : string) :
  k' ≠ getChatId req →
  sessions (iniciar now req st).2 !! k' = sessions st !! k'
  ∧ sessions (upload now req st).2 !! k' = sessions st !! k'
  ∧ sessions (comprimir now req zip st).2 !! k' = sessions st !! k'.
Proof.
  intros Hne. split; [| split].
  - unfold iniciar. simpl. by rewrite lookup_insert_ne.
  - rewrite upload_step. simpl. by rewrite lookup_insert_ne.
  - unfold comprimir.
    pose proof (ensureSession_other now (getChatId req) k' (sessions st))
      as Hother.
    destruct (ensureSession now (getChatId req) (sessions st)) as [s m].
    simpl in Hother. destruct (files s) as [| f fs]; simpl.
    + by apply Hother.
    + destruct (resolved zip); simpl.
      * rewrite lookup_delete_ne by done. by apply Hother.
      * by apply Hother.
Qed.

Definition other_session : state :=
  State {["abc" := {| files := ["/tmp/uploads/abc/10-a.jpg"];
                      createdAt := 10 |};
          "xyz" := {| files := ["/tmp/uploads/xyz/12-z.jpg"];
                      createdAt := 12 |}]}
        ∅.

Lemma handlers_keep_other_sessions_witness :
  sessions (comprimir 30 build_abc ZipClosed other_session).2 !! "xyz"
  = Some {| files := ["/tmp/uploads/xyz/12-z.jpg"]; createdAt := 12 |}.
Proof.
  assert (Hne : "xyz" ≠ getChatId build_abc) by discriminate.
  destruct (handlers_keep_other_sessions 30 build_abc ZipClosed
              other_session "xyz" Hne) as (_ & _ & Hc).
  rewrite Hc. reflexivity.
Defined.

(** X6: uploads followed by a build: the archive is written at
    [OUTPUT_DIR/fotos_<key>_<time>.zip], the response downloads that very
    path, and the archive has one member per file of the session, in the
    order the files were uploaded. *)
Theorem uploads_then_build (k : string) (calls : list (N * request))
    (now : N) (req : request) (st : state) :
  getChatId req = k →
  Forall (λ c, getChatId c.2 = k) calls →
  files_of (sessions st) k ++ concat (map (λ c, saved_of c.2) calls) ≠ [] →
  let out := comprimir now req ZipClosed (uploads calls st).2 in
  out.1 = RDownload (out_path k now) (out_name k now)
  ∧ sessions out.2 !! k = None
  ∧ ∃ members,
      disk out.2 !! out_path k now = Some (Archive members)
      ∧ map fst members
        = files_of (sessions st) k ++ concat (map (λ c, saved_of c.2) calls).
Proof.
  intros Hk Hcalls Hne. cbv zeta.
  pose proof (uploads_files k calls st Hcalls) as Hfiles.
  rewrite <- Hfiles in Hne.
  destruct (files_of_lookup _ _ Hne) as (s & Hs & Hfs).
  rewrite <- Hk in Hs.
  rewrite (comprimir_step now req ZipClosed _ s Hs) by (by rewrite Hfs).
  rewrite Hk. simpl.
  split; [reflexivity |]. split; [apply lookup_delete_eq |].
  exists (zip_members (files s)). split; [apply lookup_insert_eq |].
  rewrite Hfs, Hfiles. unfold zip_members. rewrite map_map. apply map_id.
Qed.

Lemma uploads_then_build_witness :
  ∃ members,
    disk (comprimir 30 build_abc ZipClosed
            (uploads two_then_three (State ∅ ∅)).2).2
      !! "/tmp/paquetes/fotos_abc_30.zip"
    = Some (Archive members)
    ∧ map fst members
      = ["/tmp/uploads/abc/10-a.jpg"; "/tmp/uploads/abc/11-b.jpg";
         "/tmp/uploads/abc/20-c.jpg"; "/tmp/uploads/abc/21-d.jpg";
         "/tmp/uploads/abc/22-e.jpg"].
Proof.
  assert (Hk : Forall (λ c : N * request, getChatId c.2 = "abc")
                 two_then_three)
    by (repeat constructor).
  assert (Hne : files_of (sessions (State ∅ ∅)) "abc"
                ++ concat (map (λ c : N * request, saved_of c.2)
                             two_then_three) ≠ [])
    by discriminate.
  destruct (uploads_then_build "abc" two_then_three 30 build_abc (State ∅ ∅)
              eq_refl Hk Hne) as (_ & _ & members & Hd & Hm).
  exists members. split; [exact Hd | exact Hm].
Defined.

End SessionFlow.

(** * Further properties of keys and storage names *)

Module SessionNames.
Import Http Session KeyFacts Path PathFacts NameFacts.

(** X7: with string fields the session key is never empty: it is the body
    field, the query parameter or ["default"]. *)
Theorem session_key_not_empty (req : request) :
  textual (opt_get (body req) "chatId") →
  textual (opt_get (query req) "chatId") →
  getChatId req ≠ ""
  ∧ (opt_get (body req) "chatId" = Js.VStr (getChatId req)
     ∨ opt_get (query req) "chatId" = Js.VStr (getChatId req)
     ∨ getChatId req = "default").
Proof.
  unfold getChatId, chatId_value.
  intros [-> | [b ->]] [-> | [q ->]]; unfold Js.or; simpl.
  - split; [done | by right; right].
  - destruct q; simpl; split; try done; [by right; right | by right; left].
  - destruct b; simpl; split; try done; [by right; right | by left].
  - destruct b; simpl; [| split; [done | by left]].
    destruct q; simpl; split; try done; [by right; right | by right; left].
Qed.

Lemma session_key_not_empty_witness :
  getChatId (with_ids (Some (Js.VStr "")) (Some (Js.VStr "")) None) ≠ "".
Proof.
  apply (session_key_not_empty
           (with_ids (Some (Js.VStr "")) (Some (Js.VStr "")) None)).
  - right. by exists "".
  - right. by exists "".
Defined.

Lemma plain_tmp_uploads : Forall plain ["tmp"; "uploads"].
Proof. repeat constructor; done. Qed.

(** X8: for a key that is a plain name, multer's destination is the
    directory of that key below the upload directory, and a file is stored
    there under its generated name, whatever name the client sent. *)
Theorem stored_path_layout (now : N) (chatId original mime : string)
    (sz : N) :
  plain chatId →
  destination chatId = "/tmp/uploads/" +:+ chatId
  ∧ path (store now chatId original mime sz)
    = "/tmp/uploads/" +:+ chatId +:+ "/" +:+ storage_filename now original
  ∧ inside (destination chatId) (path (store now chatId original mime sz))
    = true.
Proof.
  intros Hkey. pose proof Hkey as (_ & Hkey0 & _).
  pose proof (storage_filename_plain now original) as Hname.
  pose proof Hname as (_ & Hname0 & _).
  assert (Hdest : destination chatId = "/tmp/uploads/" +:+ chatId).
  { unfold destination, join. rewrite !filter_cons, filter_nil.
    rewrite (decide_True (P := chatId ≠ "")) by done.
    rewrite decide_True by done.
    apply (normalize_plain_segments ["tmp"; "uploads"] chatId);
      [apply plain_tmp_uploads | done | done]. }
  assert (Hpath : path (store now chatId original mime sz)
                  = "/tmp/uploads/" +:+ chatId +:+ "/"
                    +:+ storage_filename now original).
  { unfold store. simpl. unfold join. rewrite !filter_cons, filter_nil.
    rewrite (decide_True (P := storage_filename now original ≠ "")) by done.
    rewrite decide_True by (rewrite Hdest; done).
    rewrite Hdest.
    pose proof (normalize_plain_segments ["tmp"; "uploads"; chatId]
                  (storage_filename now original)) as Hn.
    rewrite <- app_assoc'. apply Hn; [| done | done].
    repeat (apply Forall_cons; split;
            [first [exact Hkey | by repeat split] |]).
    constructor. }
  split; [exact Hdest |]. split; [exact Hpath |].
  rewrite Hpath, Hdest. unfold inside.
  rewrite <- !app_assoc'. apply starts_with_app.
Qed.

Lemma stored_path_layout_witness :
  path (store 10 "abc" "IMG 1.jpg" "image/jpeg" 1000)
  = "/tmp/uploads/abc/10-IMG_1.jpg".
Proof.
  assert (Hkey : plain "abc") by (by repeat split).
  destruct (stored_path_layout 10 "abc" "IMG 1.jpg" "image/jpeg" 1000 Hkey)
    as (_ & Hpath & _).
  rewrite Hpath. reflexivity.
Defined.

(** Every character of the string is of the class [[A-Za-z0-9._-]]. *)
Definition all_safe (s : string) : bool :=
  forallb Js.is_safe_char (list_ascii_of_string s).

Lemma all_safe_app (a b : string) :
  all_safe (a +:+ b) = all_safe a && all_safe b.
Proof.
  unfold all_safe. induction a as [| c a IH]; [done |].
  rewrite app_cons. simpl. by rewrite IH, andb_assoc.
Qed.

Lemma all_safe_decimal n : all_safe (Js.decimal n) = true.
Proof.
  unfold Js.decimal, all_safe. induction (N.to_uint n) as [| d IH | d IH
    | d IH | d IH | d IH | d IH | d IH | d IH | d IH | d IH]; simpl; done.
Qed.

Lemma all_safe_replace s : all_safe (Js.replace_unsafe s) = true.
Proof.
  unfold all_safe. induction s as [| c s IH]; simpl; [done |].
  rewrite IH, andb_true_r. by destruct (Js.is_safe_char c) eqn:Hc.
Qed.

Lemma replace_unsafe_safe s :
  all_safe s = true → Js.replace_unsafe s = s.
Proof.
  unfold all_safe. induction s as [| c s IH]; simpl; [done |].
  intros [Hc Hs]%andb_true_iff. by rewrite Hc, IH.
Qed.

(** X9: a storage name of the session variant consists of characters of
    [[A-Za-z0-9._-]] only, and sanitising a name twice changes nothing
    more. *)
Theorem storage_name_safe (now : N) (original : string) :
  all_safe (storage_filename now original) = true
  ∧ Js.replace_unsafe (Js.replace_unsafe original)
    = Js.replace_unsafe original.
Proof.
  split.
  - unfold storage_filename.
    by rewrite !all_safe_app, all_safe_decimal, all_safe_replace.
  - apply replace_unsafe_safe, all_safe_replace.
Qed.

End SessionNames.

(** * Further properties of the stateless variant *)

Module IntakeMore.
Import Http Fs Stateless DiskFacts Path PathFacts.

(** ** What the filter accepts *)

(** [w] occurs in [s]. *)
Definition occurs (w s : string) : Prop := ∃ a b, s = a +:+ w +:+ b.

Lemma starts_with_true (p s : string) :
  Js.starts_with p s = true → ∃ b, s = p +:+ b.
Proof.
  revert s. induction p as [| c p IH]; intros s; simpl.
  - intros _. by exists s.
  - destruct s as [| c' s]; [done |].
    intros [Hc Hp]%andb_true_iff. apply Ascii.eqb_eq in Hc as <-.
    destruct (IH s Hp) as [b ->]. by exists b.
Qed.

Lemma includes_unfold (p s : string) :
  Js.includes p s
  = Js.starts_with p s
    || match s with
       | EmptyString => false
       | String _ s' => Js.includes p s'
       end.
Proof. by destruct s. Qed.

Lemma includes_occurs (p s : string) : Js.includes p s = true ↔ occurs p s.
Proof.
  split.
  - induction s as [| c s IH]; rewrite includes_unfold.
    + rewrite orb_false_r. intros [b ->]%starts_with_true. by exists "", b.
    + intros [Hp | Hs]%orb_true_iff.
      * apply starts_with_true in Hp as [b ->]. by exists "", b.
      * destruct (IH Hs) as (a & b & ->). by exists (String c a), b.
  - intros (a & b & ->). induction a as [| c a IH].
    + rewrite includes_unfold, app_empty_l, starts_with_app. done.
    + rewrite app_cons, includes_unfold, IH. apply orb_true_r.
Qed.

Lemma test_alternatives_occurs (words : list string) (s : string) :
  Js.test_alternatives words s = true ↔ ∃ w, w ∈ words ∧ occurs w s.
Proof.
  unfold Js.test_alternatives. rewrite existsb_exists. split.
  - intros (w & Hin & Hw). exists w.
    split; [by apply list_elem_of_In | by apply includes_occurs].
  - intros (w & Hin & Hw). exists w.
    split; [by apply list_elem_of_In | by apply includes_occurs].
Qed.

(** X10: the filter accepts a file exactly when one of the six words occurs
    somewhere in its declared type and one occurs somewhere in its
    extension taken in lower case. *)
Theorem fileFilter_occurrence (name mime : string) :
  fileFilter name mime = true
  ↔ (∃ w, w ∈ filetypes ∧ occurs w mime)
    ∧ (∃ w, w ∈ filetypes ∧ occurs w (Js.toLowerCase (extname name))).
Proof.
  unfold fileFilter. rewrite andb_true_iff.
  by rewrite !test_alternatives_occurs.
Qed.

(** X11: a name without an extension (none, or a leading dot only) is
    refused whatever its declared type. *)
Theorem no_extension_refused (name mime : string) :
  extname name = "" → fileFilter name mime = false.
Proof.
  intros Hext. unfold fileFilter. rewrite Hext. apply andb_false_r.
Qed.

Lemma no_extension_refused_witness :
  fileFilter ".jpg" "image/jpeg" = false.
Proof. apply no_extension_refused. reflexivity. Defined.

Lemma last_dot_none_sep (s : string) :
  last_dot s = None → last_dot (String "." s) = Some (String "." s, true).
Proof. intros Hs. simpl. by rewrite Hs. Qed.

Lemma last_dot_prefix (base t e : string) (b : bool) :
  base ≠ "" → last_dot t = Some (e, b) →
  last_dot (base +:+ t) = Some (e, false).
Proof.
  intros Hbase Ht. induction base as [| c base IH]; [done |].
  rewrite app_cons. simpl. destruct base as [| c' base'].
  - rewrite app_empty_l, Ht. done.
  - by rewrite IH.
Qed.

Lemma app_empty_r' (s : string) : s +:+ "" = s.
Proof. induction s as [| c s IH]; [done |]. by rewrite app_cons, IH. Qed.

Lemma length_app' (a b : string) :
  String.length (a +:+ b) = (String.length a + String.length b)%nat.
Proof. induction a as [| c a IH]; [done |]. rewrite app_cons. simpl. lia. Qed.

(** The extension of [base.ext] is [.ext], for a base that is a file name
    and an extension without a dot. *)
Lemma extname_of_base_ext (base ext : string) :
  base ≠ "" → has_sep base = false → has_sep ext = false →
  ext ≠ "" → last_dot ext = None →
  extname (base +:+ String "." ext) = String "." ext.
Proof.
  intros Hbase Hsep Hext Hext0 Hdot. unfold extname.
  assert (Hwhole : has_sep (base +:+ String "." ext) = false).
  { rewrite has_sep_app, Hsep. simpl. by rewrite Hext. }
  assert (Hb : basename (base +:+ String "." ext) = base +:+ String "." ext).
  { unfold basename. rewrite (split_no_sep _ Hwhole), filter_cons, filter_nil.
    rewrite decide_True; [done |]. by apply app_not_empty_r. }
  rewrite Hb.
  rewrite (last_dot_prefix base _ _ _ Hbase (last_dot_none_sep ext Hdot)).
  simpl orb.
  assert (Hne : base +:+ String "." ext ≠ "..").
  { intros Heq. apply (f_equal String.length) in Heq.
    rewrite length_app' in Heq. simpl in Heq.
    destruct base; [done |]. destruct ext; [done |]. simpl in Heq. lia. }
  apply String.eqb_neq in Hne. by rewrite Hne.
Qed.

(** X12: a file named [base.ext] with [ext] one of the six words, declared
    with a type that ends in that word, is accepted, whatever the base. *)
Theorem listed_file_accepted (base ext pre : string) :
  ext ∈ filetypes → base ≠ "" → has_sep base = false →
  fileFilter (base +:+ "." +:+ ext) (pre +:+ ext) = true.
Proof.
  intros Hext Hbase Hsep. unfold fileFilter. apply andb_true_iff. split.
  - apply test_alternatives_occurs. exists ext. split; [done |].
    exists pre, "". by rewrite app_empty_r'.
  - change ("." +:+ ext) with (String "." ext).
    unfold filetypes in Hext.
    repeat (apply elem_of_cons in Hext as [-> | Hext]);
      [rewrite extname_of_base_ext by done; reflexivity .. |].
    by apply elem_of_nil in Hext.
Qed.

Lemma listed_file_accepted_witness :
  fileFilter ("mi foto (1)" +:+ "." +:+ "png") ("image/" +:+ "png") = true.
Proof.
  apply listed_file_accepted; [| done | done].
  unfold filetypes. by repeat (first [left | right]).
Defined.

(** ** What multer accepts and stores *)

(** The parts that carry a file name. *)
Definition named (parts : list part) : list part :=
  filter (λ p, announced_name p ≠ "") parts.

(** What [receive] demands of a part before it stores it. *)
Definition part_ok (p : part) : Prop :=
  fieldname p = "files"
  ∧ fileFilter (announced_name p) (announced_type p) = true
  ∧ (part_size p < fileSize_limit)%N.

Lemma named_cons_skip (p : part) (rest : list part) :
  announced_name p = "" → named (p :: rest) = named rest.
Proof.
  intros Hp. unfold named. rewrite filter_cons, decide_False; [done |].
  by intros ?.
Qed.

Lemma named_cons_keep (p : part) (rest : list part) :
  announced_name p ≠ "" → named (p :: rest) = p :: named rest.
Proof. intros Hp. unfold named. by rewrite filter_cons, decide_True. Qed.

(** When [receive] ends without an error, it accepted every named part, in
    order, each one fit for it, never more than ten in all, and each
    accepted file is on the disk. *)
Lemma receive_accepts dir (parts : list part) (accepted fs : list file)
    (d : gmap string stored) :
  (receive dir parts accepted d).1.1 = inr fs →
  fs = accepted ++ map (file_of dir) (named parts)
  ∧ Forall part_ok (named parts)
  ∧ (named parts ≠ [] → (length fs ≤ maxCount)%nat)
  ∧ (receive dir parts accepted d).1.2 = fs
  ∧ (∀ f, f ∈ map (file_of dir) (named parts) →
       (receive dir parts accepted d).2 !! path f = Some Blob)
  ∧ (∀ q, q ∉ map path (map (file_of dir) (named parts)) →
       (receive dir parts accepted d).2 !! q = d !! q).
Proof.
  revert accepted d. induction parts as [| p rest IH]; intros accepted d.
  - simpl. intros [= <-]. rewrite app_nil_r.
    repeat split; try done. intros f Hf. by apply elem_of_nil in Hf.
  - rewrite IntakeFacts.receive_cons. destruct (String.eqb (announced_name p) "") eqn:Hname.
    { apply String.eqb_eq in Hname. rewrite (named_cons_skip _ _ Hname).
      apply IH. }
    apply String.eqb_neq in Hname. rewrite (named_cons_keep _ _ Hname).
    destruct (negb (String.eqb (fieldname p) "files")) eqn:Hfield;
      [done |].
    destruct (maxCount <=? length accepted)%nat eqn:Hcount; [done |].
    cbn [orb].
    destruct (fileFilter (announced_name p) (announced_type p)) eqn:Hfilter;
      [| done].
    cbn [negb].
    destruct (fileSize_limit <=? part_size p) eqn:Hsize; [done |].
    intros Hres.
    destruct (IH _ _ Hres) as (Hfs & Hok & Hlen & Hw & Hon & Hoff).
    apply negb_false_iff, String.eqb_eq in Hfield.
    apply Nat.leb_gt in Hcount. apply N.leb_gt in Hsize.
    split; [by rewrite Hfs, <- app_assoc |].
    split; [by constructor |].
    split.
    { intros _. destruct (named rest) as [| p' rest'] eqn:Hrest.
      - rewrite Hfs. simpl. rewrite app_nil_r, length_app. simpl.
        unfold maxCount in *. lia.
      - by apply Hlen. }
    split; [exact Hw |].
    split.
    + intros f [-> | Hf]%elem_of_cons; [| by apply Hon].
      destruct (decide (path (file_of dir p)
                        ∈ map path (map (file_of dir) (named rest))))
        as [Hin | Hout].
      * apply list_elem_of_In, in_map_iff in Hin as (f' & Hpath & Hf').
        apply list_elem_of_In in Hf'. pose proof (Hon f' Hf') as Hblob.
        by rewrite Hpath in Hblob.
      * rewrite (Hoff _ Hout). apply lookup_insert_eq.
    + intros q Hq. simpl in Hq. apply not_elem_of_cons in Hq as [Hne Hq].
      rewrite (Hoff q Hq). by rewrite lookup_insert_ne.
Qed.

Lemma upload_lists (dir : string) (parts : list part) (fs : list file)
    (d : gmap string stored) :
  (upload dir parts d).1 = inr fs →
  fs = map (file_of dir) (named parts)
  ∧ (length fs ≤ 10)%nat
  ∧ Forall part_ok (named parts).
Proof.
  unfold upload. intros Hres.
  pose proof (receive_accepts dir parts [] fs d) as Hrec.
  destruct (receive dir parts [] d) as [[[err | fs'] written] d'];
    simpl in *; [done |].
  injection Hres as ->.
  destruct (Hrec eq_refl) as (Hfs & Hok & Hlen & _).
  split; [exact Hfs |]. split; [| exact Hok].
  destruct (named parts) as [| p ps] eqn:Hn.
  - rewrite Hfs. simpl. lia.
  - by apply Hlen.
Qed.

Definition pdf_part : part :=
  Part "files" "informe.pdf" "application/pdf" 4096 50 777.

(** ** Where the files go *)

Lemma List_last_Forall {A} (P : A → Prop) (l : list A) (d : A) :
  Forall P l → P d → P (List.last l d).
Proof.
  intros Hl Hd. induction Hl as [| x l Hx Hl IH]; [done |].
  simpl. by destruct l.
Qed.

Lemma basename_no_sep (p : string) : has_sep (basename p) = false.
Proof.
  unfold basename. apply (List_last_Forall (λ s, has_sep s = false)); [| done].
  apply Forall_forall. intros seg [_ Hseg]%list_elem_of_filter.
  by apply (proj1 (Forall_forall _ _) (split_segments_no_sep p)).
Qed.

Lemma last_dot_suffix (s e : string) (b : bool) :
  last_dot s = Some (e, b) → ∃ pre, s = pre +:+ e.
Proof.
  revert e b. induction s as [| c s IH]; intros e b; simpl; [done |].
  destruct (last_dot s) as [[e' b'] |].
  - intros [= <- <-]. destruct (IH e' b' eq_refl) as [pre ->].
    by exists (String c pre).
  - destruct (Ascii.eqb c "."); [| done]. intros [= <- <-]. by exists "".
Qed.

Lemma extname_no_sep (p : string) : has_sep (extname p) = false.
Proof.
  unfold extname. pose proof (basename_no_sep p) as Hb.
  destruct (last_dot (basename p)) as [[e b] |] eqn:Hdot; [| done].
  destruct (b || String.eqb (basename p) ".."); [done |].
  destruct (last_dot_suffix _ _ _ Hdot) as [pre Hpre].
  rewrite Hpre, has_sep_app in Hb. by apply orb_false_elim in Hb as [_ ?].
Qed.

(** The storage name of the stateless variant is a file name proper. *)
Lemma stateless_filename_plain now rnd original :
  plain (storage_filename now rnd original).
Proof.
  unfold plain, storage_filename. split.
  - rewrite !has_sep_app, !NameFacts.decimal_no_sep, extname_no_sep. done.
  - set (rest := Js.decimal rnd +:+ extname original). unfold Js.decimal.
    destruct (N.to_uint now); simpl NilEmpty.string_of_uint;
      rewrite ?app_empty_l, ?app_cons; repeat split; discriminate.
Qed.

(** X14: with the application installed at an absolute path, every file
    multer stores lies strictly inside the upload directory, under its
    generated name: the client's file name cannot move it elsewhere. *)
Theorem stored_inside_upload_dir (dir : string) (p : part) :
  first_is_sep dir = true →
  path (file_of dir p) = UPLOAD_DIR dir +:+ "/" +:+ filename (file_of dir p)
  ∧ inside (UPLOAD_DIR dir) (path (file_of dir p)) = true
  ∧ basename (path (file_of dir p))
    = Js.decimal (at_time p) +:+ "-" +:+ Js.decimal (random p)
      +:+ extname (originalname (file_of dir p)).
Proof.
  intros Habs.
  pose proof (stateless_filename_plain (at_time p) (random p)
                (announced_name p)) as Hname.
  assert (Hsub : plain "uploads") by (by repeat split).
  destruct (join_plain_inside dir "uploads" _ Habs Hsub Hname)
    as [Hjoin Hinside].
  split; [exact Hjoin |]. split; [exact Hinside |].
  simpl. by apply basename_join.
Qed.

Definition sneaky : part :=
  Part "files" "../../etc/cron.d/x.jpg" "image/jpeg" 10 50 777.

Lemma stored_inside_upload_dir_witness :
  path (file_of "/app" sneaky) = "/app/uploads/50-777.jpg".
Proof.
  destruct (stored_inside_upload_dir "/app" sneaky eq_refl) as (Hpath & _).
  rewrite Hpath. reflexivity.
Defined.

(** ** Requests multer refuses *)

(** X15: a request with more than ten named files, a named file in
    another field, a file the filter refuses or a file of 25 MiB or more is
    answered 400 with code [UPLOAD_ERROR], schedules nothing and leaves no
    new file on the disk. *)
Theorem invalid_request_rejected (dir : string) (dev : bool)
    (parts : list part) (now : N) (zip : zip_outcome)
    (d : gmap string stored) :
  (10 < length (named parts))%nat ∨ Exists (λ p, ¬ part_ok p) (named parts) →
  (∃ message,
     (comprimir dir dev parts now zip d).1
     = [Respond (RJson 400 [("success", JBool false);
                            ("error", JStr message);
                            ("code", JStr "UPLOAD_ERROR")])])
  ∧ ∀ q, d !! q = None → (comprimir dir dev parts now zip d).2 !! q = None.
Proof.
  intros Hbad.
  assert (Hrej : ∃ message, (upload dir parts d).1 = inl message).
  { destruct (upload dir parts d).1 as [message | fs] eqn:Hres; [eauto |].
    destruct (upload_lists dir parts fs d Hres) as (Hfs & Hlen & Hok).
    destruct Hbad as [Hmany | Hex].
    - rewrite Hfs, length_map in Hlen. lia.
    - apply Exists_exists in Hex as (p & Hin & Hnot).
      destruct Hnot. by apply (proj1 (Forall_forall _ _) Hok). }
  destruct Hrej as [message Hm].
  pose proof (IntakeFacts.rejected_upload_leaves_nothing dir parts d message)
    as Hdisk.
  unfold comprimir. destruct (upload dir parts d) as [result d'].
  simpl in Hm, Hdisk. subst result. simpl.
  split; [eauto | intros q Hq; by apply Hdisk].
Qed.

Definition notes : part :=
  Part "files" "notas.txt" "text/plain" 120 50 777.

Lemma invalid_request_rejected_witness :
  ∃ message,
    (comprimir "/app" false [pdf_part; notes] 60 ZipClosed ∅).1
    = [Respond (RJson 400 [("success", JBool false);
                           ("error", JStr message);
                           ("code", JStr "UPLOAD_ERROR")])].
Proof.
  assert (Hbad : (10 < length (named [pdf_part; notes]))%nat
                 ∨ Exists (λ p, ¬ part_ok p) (named [pdf_part; notes])).
  { right. apply Exists_cons_tl, Exists_cons_hd.
    intros (_ & Hfilter & _). discriminate Hfilter. }
  exact (proj1 (invalid_request_rejected "/app" false [pdf_part; notes] 60
                  ZipClosed ∅ Hbad)).
Defined.

Lemma receive_unnamed dir (parts : list part) (accepted : list file)
    (d : gmap string stored) :
  named parts = [] → receive dir parts accepted d = (inr accepted, accepted, d).
Proof.
  induction parts as [| p rest IH]; [done |].
  rewrite IntakeFacts.receive_cons. destruct (String.eqb (announced_name p) "") eqn:Hname.
  - apply String.eqb_eq in Hname. rewrite (named_cons_skip _ _ Hname).
    apply IH.
  - apply String.eqb_neq in Hname. by rewrite (named_cons_keep _ _ Hname).
Qed.

(** X16: a request without a named file part (no part at all, or parts
    with an empty file name only) is answered 400 with code [NO_FILES]; it
    writes nothing and schedules nothing. *)
Theorem no_files_rejected (dir : string) (dev : bool) (parts : list part)
    (now : N) (zip : zip_outcome) (d : gmap string stored) :
  named parts = [] →
  comprimir dir dev parts now zip d
  = ([Respond (RJson 400 [("success", JBool false);
                          ("error", JStr "No se han subido archivos");
                          ("code", JStr "NO_FILES")])], d).
Proof.
  intros Hnone. unfold comprimir, upload.
  by rewrite (receive_unnamed dir parts [] d Hnone).
Qed.

Definition nameless : part := Part "files" "" "application/octet-stream" 0 50 1.

Lemma no_files_rejected_witness :
  (comprimir "/app" false [nameless] 60 ZipClosed ∅).2 = ∅.
Proof.
  by rewrite (no_files_rejected "/app" false [nameless] 60 ZipClosed ∅ eq_refl).
Defined.

(** ** From the request to the download *)

(** The name and the path [/comprimir] gives the archive. *)
Definition zip_name (now : N) : string :=
  "archivos-" +:+ Js.decimal now +:+ ".zip".

Definition zip_path (dir : string) (now : N) : string :=
  Path.join [OUTPUT_DIR dir; zip_name now].

Lemma entry_names_of_named dir (parts : list part) :
  map entry_name (map (file_of dir) (named parts))
  = map announced_name (named parts).
Proof.
  rewrite map_map. apply map_ext_in. intros p Hp.
  apply list_elem_of_In, list_elem_of_filter in Hp as [Hname _].
  unfold entry_name. simpl. apply String.eqb_neq in Hname. by rewrite Hname.
Qed.

Lemma comprimir_cb_built dir dev (fs : list file) now
    (d : gmap string stored) :
  fs ≠ [] →
  comprimir_cb dir dev (inr fs) now ZipClosed d
  = ([SetTimeout 5000 fs;
      Respond (RJson 200
        [("success", JBool true);
         ("message", JStr "Archivos comprimidos exitosamente");
         ("downloadUrl", JStr ("/descargar/" +:+ zip_name now));
         ("filename", JStr (zip_name now));
         ("fileCount", JNum (N.of_nat (length fs)))])],
     <[zip_path dir now := Archive (zip_members fs)]> d).
Proof. by destruct fs. Qed.

(** X17: a request multer accepts, once archived: the reply counts the
    named parts, the deletion of exactly the stored files is scheduled,
    and the archive at [OUTPUT_DIR/archivos-<time>.zip] holds one member
    per named part, in order, under the original name multer hands over
    (the last component of the name the client gave). *)
Theorem accepted_request_archived (dir : string) (dev : bool)
    (parts : list part) (fs : list file) (now : N)
    (d : gmap string stored) :
  (upload dir parts d).1 = inr fs →
  named parts ≠ [] →
  let out := comprimir dir dev parts now ZipClosed d in
  out.1 = [SetTimeout 5000 (map (file_of dir) (named parts));
           Respond (RJson 200
             [("success", JBool true);
              ("message", JStr "Archivos comprimidos exitosamente");
              ("downloadUrl", JStr ("/descargar/" +:+ zip_name now));
              ("filename", JStr (zip_name now));
              ("fileCount", JNum (N.of_nat (length (named parts))))])]
  ∧ ∃ members,
      out.2 !! zip_path dir now = Some (Archive members)
      ∧ map fst members = map path (map (file_of dir) (named parts))
      ∧ map snd members = map announced_name (named parts).
Proof.
  intros Hres Hne. cbv zeta.
  destruct (upload_lists dir parts fs d Hres) as (Hfs & _ & _).
  unfold comprimir. destruct (upload dir parts d) as [result d'].
  simpl in Hres. subst result. subst fs.
  rewrite comprimir_cb_built by (by destruct (named parts)).
  cbn [fst snd]. rewrite length_map. split; [reflexivity |].
  exists (zip_members (map (file_of dir) (named parts))).
  split; [apply lookup_insert_eq |].
  unfold zip_members. rewrite !map_map. split; [done |].
  rewrite <- (entry_names_of_named dir parts). by rewrite map_map.
Qed.

Lemma accepted_request_archived_witness :
  ∃ members,
    (comprimir "/app" false [pdf_part] 60 ZipClosed ∅).2
      !! "/app/paquetes/archivos-60.zip"
    = Some (Archive members)
    ∧ map snd members = ["informe.pdf"].
Proof.
  assert (Hne : named [pdf_part] ≠ []) by discriminate.
  destruct (accepted_request_archived "/app" false [pdf_part]
              [file_of "/app" pdf_part] 60 ∅ eq_refl Hne)
    as (_ & members & Hd & _ & Hnames).
  exists members. split; [exact Hd | exact Hnames].
Defined.

(** The segments [path.normalize] keeps of an absolute path. *)
Definition kept (p : string) : list string :=
  rev (fold_left (norm_step false) (split p) []).

Lemma kept_plain (p : string) : Forall plain (kept p).
Proof.
  apply Forall_rev, fold_keeps_plain; [done | apply split_segments_no_sep].
Qed.

Lemma normalize_absolute_kept (p name : string) :
  first_is_sep p = true → plain name →
  normalize (p +:+ String "/" name) = "/" +:+ join_sep (kept p ++ [name]).
Proof.
  intros Habs Hplain. pose proof Hplain as (Hsep & Hne & _).
  set (q := p +:+ String "/" name).
  assert (Hq0 : String.eqb q "" = false).
  { apply String.eqb_neq. by apply app_not_empty_r. }
  assert (Hfirst : first_is_sep q = true) by (by destruct p).
  assert (Hlast : last_is_sep q = false).
  { unfold q. rewrite last_is_sep_app by done. simpl.
    rewrite (last_is_sep_no_sep _ Hsep). by destruct name. }
  assert (Hsplit : split q = split p ++ [name]).
  { unfold q. by rewrite split_app_sep, (split_no_sep name). }
  unfold normalize, normalizeString.
  rewrite Hq0, Hfirst, Hlast, Hsplit, fold_left_app.
  cbn [negb fold_left]. rewrite (norm_step_plain _ _ _ Hplain). cbn [rev].
  fold (kept p).
  assert (Hbody : join_sep (kept p ++ [name]) ≠ "").
  { destruct (join_sep_snoc (kept p) name) as [-> | [a ->]];
      [done | by apply app_not_empty_r]. }
  apply String.eqb_neq in Hbody. by rewrite Hbody.
Qed.

(** A plain name in a plain subdirectory of an absolute directory, by its
    segments. *)
Lemma nested_join_segments (dir sub name : string) :
  first_is_sep dir = true → plain sub → plain name →
  join [join [dir; sub]; name] = "/" +:+ join_sep (kept dir ++ [sub; name]).
Proof.
  intros Habs Hsub Hname.
  pose proof Hsub as (_ & Hsub0 & _).
  destruct (join_plain_inside dir sub name Habs Hsub Hname) as [-> _].
  assert (Hroot : dir ≠ "") by by destruct dir.
  assert (Hjoin : join [dir; sub] = "/" +:+ join_sep (kept dir ++ [sub])).
  { unfold join. rewrite !filter_cons, filter_nil.
    rewrite !decide_True by done. by apply normalize_absolute_kept. }
  rewrite Hjoin, app_assoc', (sep_app name).
  rewrite <- join_sep_app_snoc by (by destruct (kept dir)).
  by rewrite <- app_assoc.
Qed.

(** No file of the upload directory is a file of the output directory. *)
Lemma upload_and_output_differ (dir n1 n2 : string) :
  first_is_sep dir = true → plain n1 → plain n2 →
  join [UPLOAD_DIR dir; n1] ≠ join [OUTPUT_DIR dir; n2].
Proof.
  intros Habs H1 H2. unfold UPLOAD_DIR, OUTPUT_DIR.
  rewrite !nested_join_segments by (done || by repeat split).
  rewrite !sep_app. intros [= Heq].
  apply (f_equal split) in Heq.
  assert (Hall : ∀ sub n, plain sub → plain n →
                          Forall plain (kept dir ++ [sub; n])).
  { intros sub n Hs Hn. apply Forall_app. split; [apply kept_plain |].
    apply Forall_cons. split; [done |]. apply Forall_cons. split; [done |].
    constructor. }
  rewrite !split_join_sep in Heq;
    [| by apply Hall; [by repeat split | done] | by destruct (kept dir)
     | by apply Hall; [by repeat split | done] | by destruct (kept dir)].
  by apply app_inv_head in Heq.
Qed.

Lemma zip_name_plain (now : N) : plain (zip_name now).
Proof.
  unfold plain, zip_name. split.
  - by rewrite !has_sep_app, NameFacts.decimal_no_sep.
  - rewrite !app_cons. repeat split; discriminate.
Qed.

(** X18: the archive of an accepted request can be downloaded under the
    name the reply gives, at once and also after the timer has fired; by
    then the timer has removed every uploaded file of the request, and
    never the archive. *)
Theorem built_archive_downloads (dir : string) (dev : bool)
    (parts : list part) (fs : list file) (now : N)
    (d : gmap string stored) :
  first_is_sep dir = true →
  (upload dir parts d).1 = inr fs →
  named parts ≠ [] →
  let out := comprimir dir dev parts now ZipClosed d in
  descargar dir (zip_name now) out.2
  = RDownload (zip_path dir now) (zip_name now)
  ∧ descargar dir (zip_name now) (CleanupFacts.after_timers out.1 out.2)
    = RDownload (zip_path dir now) (zip_name now)
  ∧ ∀ f, f ∈ fs →
      existsSync (CleanupFacts.after_timers out.1 out.2) (path f) = false.
Proof.
  intros Habs Hres Hne. cbv zeta.
  destruct (upload_lists dir parts fs d Hres) as (Hfs & _ & _).
  unfold comprimir. destruct (upload dir parts d) as [result d'].
  simpl in Hres. subst result.
  assert (Hfs0 : fs ≠ []) by (rewrite Hfs; by destruct (named parts)).
  rewrite comprimir_cb_built by done.
  unfold CleanupFacts.after_timers. cbn [fst snd fold_right fire].
  split; [| split].
  - apply DeliveryFacts.descargar_served. fold (zip_path dir now).
    rewrite lookup_insert_eq. eauto.
  - apply DeliveryFacts.descargar_served. fold (zip_path dir now).
    rewrite cleanupFiles_lookup, decide_False, lookup_insert_eq; [eauto |].
    rewrite Hfs, map_map.
    intros (p & Hp & _)%list_elem_of_In%in_map_iff.
    revert Hp. unfold zip_path. simpl.
    apply upload_and_output_differ;
      [done | apply stateless_filename_plain | apply zip_name_plain].
  - intros f Hf. apply not_true_is_false. rewrite existsSync_true.
    rewrite cleanupFiles_lookup, decide_True; [by intros [? ?] |].
    by apply list_elem_of_In, in_map, list_elem_of_In.
Qed.

Lemma built_archive_downloads_witness :
  descargar "/app" "archivos-60.zip"
    (CleanupFacts.after_timers
       (comprimir "/app" false [pdf_part] 60 ZipClosed ∅).1
       (comprimir "/app" false [pdf_part] 60 ZipClosed ∅).2)
  = RDownload "/app/paquetes/archivos-60.zip" "archivos-60.zip".
Proof.
  assert (Hne : named [pdf_part] ≠ []) by discriminate.
  destruct (built_archive_downloads "/app" false [pdf_part]
              [file_of "/app" pdf_part] 60 ∅ eq_refl eq_refl Hne)
    as (_ & Hafter & _).
  exact Hafter.
Defined.

(** X19: [cleanupFiles] removes the listed files and nothing else, does
    not mind files that are already gone, and running it twice is running
    it once. *)
Theorem cleanupFiles_exact (fs : list file) (d : gmap string stored) :
  (∀ f, f ∈ fs → cleanupFiles fs d !! path f = None)
  ∧ (∀ q, q ∉ map path fs → cleanupFiles fs d !! q = d !! q)
  ∧ cleanupFiles fs (cleanupFiles fs d) = cleanupFiles fs d
  ∧ ((∀ f, f ∈ fs → d !! path f = None) → cleanupFiles fs d = d).
Proof.
  split; [| split; [| split]].
  - intros f Hf. rewrite cleanupFiles_lookup, decide_True; [done |].
    by apply list_elem_of_In, in_map, list_elem_of_In.
  - intros q Hq. by rewrite cleanupFiles_lookup, decide_False.
  - apply map_eq. intros q. rewrite !cleanupFiles_lookup.
    by destruct (decide (q ∈ map path fs)).
  - intros Hgone. apply map_eq. intros q. rewrite cleanupFiles_lookup.
    destruct (decide (q ∈ map path fs)) as [Hin | Hout]; [| done].
    apply list_elem_of_In, in_map_iff in Hin as (f & <- & Hf).
    symmetry. apply Hgone. by apply list_elem_of_In.
Qed.

(** ** What multer hands over, on examples *)

(** A client path is cut down to its last component; an upper-case
    declared type is lower-cased before the filter sees it. *)
Example announced_examples :
  announced_name sneaky = "x.jpg"
  ∧ announced_name (Part "files" "C:\fotos\a.png" "image/png" 10 50 1)
    = "a.png"
  ∧ announced_name (Part "files" ".." "image/png" 10 50 1) = ""
  ∧ announced_type (Part "files" "x.jpg" "IMAGE/JPEG" 10 50 1)
    = "image/jpeg".
Proof. repeat split; reflexivity. Qed.

(** A picture declared [IMAGE/JPEG] is stored; a file of exactly 25 MiB
    is refused, one byte less is stored. *)
Example upload_examples :
  (upload "/app" [Part "files" "x.jpg" "IMAGE/JPEG" 10 50 1] ∅).1
  = inr [file_of "/app" (Part "files" "x.jpg" "IMAGE/JPEG" 10 50 1)]
  ∧ upload "/app" [Part "files" "x.jpg" "image/jpeg" 26214400 50 1] ∅
    = (inl "File too large", ∅)
  ∧ (upload "/app" [Part "files" "x.jpg" "image/jpeg" 26214399 50 1] ∅).2
      !! "/app/uploads/50-1.jpg"
    = Some Blob.
Proof. repeat split; reflexivity. Qed.

End IntakeMore.

(** * The WhatsApp webhook of the stateless variant *)

(** ** JSON values as [express.json()] parses them *)

Module Json.

(** Numbers are the integers; a missing property ([undefined]) is [None]
    of [option t]. An object keeps its members in the order of the text;
    of two members with the same key the later one counts. *)
#[warning="-register-all"]
Inductive t :=
| Null
| Bool (b : bool)
| Num (n : Z)
| Str (s : string)
| Arr (l : list t)
| Obj (members : list (string * t)).

Fixpoint member (key : string) (members : list (string * t)) : option t :=
  match members with
  | [] => None
  | (k, v) :: rest =>
      match member key rest with
      | Some v' => Some v'
      | None => if String.eqb key k then Some v else None
      end
  end.

(** [o?.key], and [o.key] on a value that is not [null] or [undefined],
    for keys that are no built-in property of strings, numbers or arrays:
    only an object has them. *)
Definition prop (o : option t) (key : string) : option t :=
  match o with
  | Some (Obj members) => member key members
  | _ => None
  end.

(** [o?.[0]]: the first element of an array, the first character of a
    string, the member ["0"] of an object. *)
Definition first (o : option t) : option t :=
  match o with
  | Some (Arr (x :: _)) => Some x
  | Some (Str (String c _)) => Some (Str (String c EmptyString))
  | Some (Obj members) => member "0" members
  | _ => None
  end.

(** ToBoolean *)
Definition truthy (o : option t) : bool :=
  match o with
  | None | Some Null => false
  | Some (Bool b) => b
  | Some (Num n) => negb (n =? 0)%Z
  | Some (Str s) => negb (String.eqb s "")
  | Some (Arr _) | Some (Obj _) => true
  end.

(** [a || b] *)
Definition or (a b : option t) : option t := if truthy a then a else b.

(** [o === "text"] *)
Definition is_text (o : option t) (text : string) : bool :=
  match o with
  | Some (Str s) => String.eqb s text
  | _ => false
  end.

(** [s.split('.').pop()]: what follows the last dot, all of [s] when it has
    no dot. *)
Definition after_last_dot (s : string) : string :=
  match Path.last_dot s with
  | Some (String _ rest, _) => rest
  | _ => s
  end.

End Json.

Module Webhook.
Import Fs.

(** What a handler does, in order: timers it sets and the answer. *)
Inductive event :=
| Timer (delay : N) (unlink : string)   (* setTimeout(() => fs.unlink(path), delay) *)
| Answer (status : N) (fields : list (string * option Json.t))   (* res.status(..).json *)
| SendStatus (status : N)               (* res.sendStatus *)
| Send (status : N) (content : option Json.t).   (* res.status(..).send *)

Definition text (s : string) : option Json.t := Some (Json.Str s).
Definition flag (b : bool) : option Json.t := Some (Json.Bool b).

(** [process.env.WHATSAPP_VERIFY_TOKEN || 'tu_token_de_verificacion'] *)
Definition verifyToken (env : option string) : string :=
  match env with
  | Some (String c s) => String c s
  | _ => "tu_token_de_verificacion"
  end.

(** [app.get('/webhook/whatsapp')], on the parsed query string. *)
Definition verify (env : option string) (query : list (string * Json.t))
    : event :=
  if Json.is_text (Json.member "hub.mode" query) "subscribe"
     && Json.is_text (Json.member "hub.verify_token" query) (verifyToken env)
  then Send 200 (Json.member "hub.challenge" query)
  else SendStatus 403.

(** What the handler passes to [createZip]. *)
Record fileInfo := FileInfo {
  originalname : option Json.t;
  mimetype : option Json.t;
  filename : string;
  path : string;
  size : option Json.t;
  whatsappMediaId : option Json.t;
}.

(** The extension of the temporary file: [Some] of it, or [None] when
    [filename?.split] is not a function and the call throws. *)
Definition fileExt (mediaType : string) (media : option Json.t)
    : option string :=
  if String.eqb mediaType "image" then Some "jpg"
  else
    match Json.prop media "filename" with
    | None | Some Json.Null => Some "bin"
    | Some (Json.Str s) =>
        let last := Json.after_last_dot s in
        Some (if String.eqb last "" then "bin" else last)
    | Some _ => None
    end.

Definition ack : event := Answer 200 [("status", text "ok")].

Section App.
(** [__dirname], whether [NODE_ENV] is ["development"], and the message
    of the engine's TypeError for a call of something that is no
    function. *)
Variable __dirname : string.
Variable development : bool.
Variable not_a_function : string.

Definition failure (message : string) : event :=
  Answer 500 [("success", flag false);
              ("error", text "Error al procesar el mensaje");
              ("details", if development then text message else None)].

(** [app.post('/webhook/whatsapp')] on the parsed body (an object or an
    array, as the strict parser gives), with the two readings of the
    clock, the outcome of [writeFile] (an error message when it fails) and
    of the archiver. [None]: the payload names the file by something that
    is not a string, which the archive model does not cover. *)
Definition receive (body : Json.t) (protocol : string) (host : option string)
    (now1 now2 : N) (write_error : option string) (zip : zip_outcome)
    (d : gmap string stored) : option (list event * gmap string stored) :=
  let value :=
    Json.prop
      (Json.first (Json.prop (Json.first (Json.prop (Some body) "entry"))
                             "changes"))
      "value" in
  if Json.truthy (Json.prop value "statuses") then Some ([ack], d)
  else
    let message := Json.first (Json.prop value "messages") in
    if negb (Json.truthy message) then Some ([ack], d)
    else
      let type := Json.prop message "type" in
      if Json.is_text type "image" || Json.is_text type "document" then
        let mediaType :=
          if Json.is_text type "image" then "image" else "document" in
        let media := Json.prop message mediaType in
        let mediaId := Json.prop media "id" in
        let mimeType :=
          Json.or (Json.prop media "mime_type")
                  (text (if String.eqb mediaType "image" then "image/jpeg"
                         else "application/octet-stream")) in
        match fileExt mediaType media with
        | None => Some ([failure not_a_function], d)
        | Some ext =>
            if negb (Json.truthy mediaId) then
              Some ([Answer 400 [("success", flag false);
                                 ("error", text "ID de archivo no encontrado")]],
                    d)
            else
              let fileName :=
                "whatsapp-" +:+ Js.decimal now1 +:+ "." +:+ ext in
              let filePath := Path.join [Stateless.UPLOAD_DIR __dirname;
                                         fileName] in
              let info :=
                {| originalname :=
                     Json.or (Json.prop media "filename") (text fileName);
                   mimetype := mimeType;
                   filename := fileName;
                   path := filePath;
                   size := Json.or (Json.prop media "file_size")
                                   (Some (Json.Num 0));
                   whatsappMediaId := mediaId |} in
              match write_error with
              | Some message => Some ([failure message], d)
              | None =>
                  let d1 := <[filePath := Blob]> d in
                  let zipFilename :=
                    "whatsapp-" +:+ Js.decimal now2 +:+ ".zip" in
                  let zipPath := Path.join [Stateless.OUTPUT_DIR __dirname;
                                            zipFilename] in
                  match originalname info with
                  | Some (Json.Str name) =>
                      (* createZip([fileInfo], zipPath) *)
                      let d2 := write_archive zipPath [(filePath, name)]
                                  zip d1 in
                      match zip with
                      | ZipClosed =>
                          let downloadUrl :=
                            protocol +:+ "://"
                            +:+ default "undefined" host
                            +:+ "/descargar/" +:+ zipFilename in
                          Some ([Timer 5000 filePath;
                                 Answer 200
                                   [("success", flag true);
                                    ("message",
                                     text "Archivo recibido y procesado");
                                    ("downloadUrl", text downloadUrl);
                                    ("filename", text zipFilename);
                                    ("mediaType", text mediaType);
                                    ("whatsappMessageId",
                                     Json.prop message "id")]],
                                d2)
                      | ZipError message _ => Some ([failure message], d2)
                      end
                  | _ => None
                  end
              end
        end
      else
        Some ([Answer 200
                 [("success", flag true);
                  ("type", text "text");
                  ("text", Json.prop (Json.prop message "text") "body");
                  ("message", text "Mensaje de texto recibido correctamente");
                  ("whatsappMessageId", Json.prop message "id")]],
              d).

End App.

(** The disk once the timers of a trace have fired. *)
Definition fire (e : event) (d : gmap string stored) : gmap string stored :=
  match e with
  | Timer _ p => delete p d
  | _ => d
  end.

Definition after_timers (trace : list event) (d : gmap string stored)
    : gmap string stored :=
  foldr fire d trace.

End Webhook.

Module WebhookFacts.
Import Fs Webhook Path PathFacts.

Lemma verifyToken_not_empty (env : option string) : verifyToken env ≠ "".
Proof. by destruct env as [[| c s] |]. Qed.

(** X20: the handshake never succeeds for a caller that sends no
    [hub.verify_token] or an empty one, however the token is configured:
    an unset or empty [WHATSAPP_VERIFY_TOKEN] falls back to the default
    token, it does not switch the check off. *)
Theorem handshake_needs_token (env : option string)
    (query : list (string * Json.t)) :
  Json.truthy (Json.member "hub.verify_token" query) = false →
  verify env query = SendStatus 403.
Proof.
  intros Hfalsy. unfold verify.
  destruct (Json.member "hub.verify_token" query) as [[| b | n | s | l | m] |];
    simpl in *; rewrite ?andb_false_r; try done.
  apply negb_false_iff, String.eqb_eq in Hfalsy. subst s.
  pose proof (verifyToken_not_empty env) as Hne.
  apply not_eq_sym, String.eqb_neq in Hne.
  by rewrite Hne, andb_false_r.
Qed.

Lemma handshake_needs_token_witness :
  verify (Some "")
    [("hub.mode", Json.Str "subscribe"); ("hub.verify_token", Json.Str "");
     ("hub.challenge", Json.Str "1158201444")]
  = SendStatus 403.
Proof. apply handshake_needs_token. reflexivity. Defined.

(** The first message of a payload, and its media object. *)
Definition value_of (body : Json.t) : option Json.t :=
  Json.prop
    (Json.first (Json.prop (Json.first (Json.prop (Some body) "entry"))
                           "changes"))
    "value".

Definition message_of (body : Json.t) : option Json.t :=
  Json.first (Json.prop (value_of body) "messages").

Definition is_media (body : Json.t) : bool :=
  Json.is_text (Json.prop (message_of body) "type") "image"
  || Json.is_text (Json.prop (message_of body) "type") "document".

Definition media_of (body : Json.t) : option Json.t :=
  Json.prop (message_of body)
    (if Json.is_text (Json.prop (message_of body) "type") "image"
     then "image" else "document").

(** The payload is no status update and its first message is an image or
    a document with a media id. *)
Definition wants_file (body : Json.t) : bool :=
  negb (Json.truthy (Json.prop (value_of body) "statuses"))
  && Json.truthy (message_of body)
  && is_media body
  && Json.truthy (Json.prop (media_of body) "id").

Definition is_answer (e : event) : Prop :=
  ∃ status fields, e = Answer status fields.

Lemma receive_quiet (dir : string) (dev : bool) (naf : string)
    (body : Json.t) (protocol : string) (host : option string)
    (now1 now2 : N) (write_error : option string) (zip : zip_outcome)
    (d : gmap string stored) :
  wants_file body = false →
  ∃ a, is_answer a
       ∧ receive dir dev naf body protocol host now1 now2 write_error zip d
         = Some ([a], d).
Proof.
  unfold wants_file, is_media, media_of, message_of, value_of, receive.
  intros Hquiet.
  destruct (Json.truthy (Json.prop _ "statuses")); simpl in Hquiet.
  { eexists. split; [| reflexivity]. by eexists _, _. }
  destruct (Json.truthy (Json.first _)); simpl in Hquiet |- *.
  2: { eexists. split; [| reflexivity]. by eexists _, _. }
  destruct (_ || _); simpl in Hquiet.
  2: { eexists. split; [| reflexivity]. by eexists _, _. }
  rewrite Hquiet. simpl.
  destruct (fileExt _ _); eexists; (split; [| reflexivity]);
    by eexists _, _.
Qed.

(** X21: unless the payload is a first message of type image or document
    with a media id (and no status update), the handler answers and does
    nothing else: no file is written, no timer is set, and the outcomes of
    writing and archiving play no part. *)
Theorem quiet_unless_media (dir : string) (dev : bool) (naf : string)
    (body : Json.t) (protocol : string) (host : option string)
    (now1 now2 : N) (write_error : option string) (zip : zip_outcome)
    (d : gmap string stored) :
  wants_file body = false →
  ∃ a, is_answer a
       ∧ receive dir dev naf body protocol host now1 now2 write_error zip d
         = Some ([a], d)
       ∧ ∀ now1' now2' write_error' zip',
           receive dir dev naf body protocol host now1' now2' write_error'
             zip' d
           = Some ([a], d).
Proof.
  unfold wants_file, is_media, media_of, message_of, value_of, receive.
  intros Hquiet.
  destruct (Json.truthy (Json.prop _ "statuses")); simpl in Hquiet.
  { eexists. split; [by eexists _, _ | by split]. }
  destruct (Json.truthy (Json.first _)); simpl in Hquiet |- *.
  2: { eexists. split; [by eexists _, _ | by split]. }
  destruct (_ || _); simpl in Hquiet.
  2: { eexists. split; [by eexists _, _ | by split]. }
  rewrite Hquiet. simpl.
  destruct (fileExt _ _); eexists; (split; [by eexists _, _ | by split]).
Qed.

Definition text_message : Json.t :=
  Json.Obj [("entry", Json.Arr [Json.Obj [("changes", Json.Arr [Json.Obj
    [("value", Json.Obj [("messages", Json.Arr [Json.Obj
       [("id", Json.Str "wamid.1"); ("type", Json.Str "text");
        ("text", Json.Obj [("body", Json.Str "hola")])]])])]])]])].

Lemma quiet_unless_media_witness :
  ∃ a, is_answer a
       ∧ receive "/app" false "x is not a function" text_message "https"
           (Some "zip.example") 10 20 None ZipClosed ∅
         = Some ([a], ∅).
Proof.
  destruct (quiet_unless_media "/app" false "x is not a function"
              text_message "https" (Some "zip.example") 10 20 None ZipClosed
              ∅ eq_refl) as (a & Ha & Hrun & _).
  exists a. split; [exact Ha | exact Hrun].
Defined.

(** The temporary file and the archive of a media message. *)
Definition tmp_name (now1 : N) (ext : string) : string :=
  "whatsapp-" +:+ Js.decimal now1 +:+ "." +:+ ext.

Definition tmp_path (dir : string) (now1 : N) (ext : string) : string :=
  Path.join [Stateless.UPLOAD_DIR dir; tmp_name now1 ext].

Definition zip_name (now2 : N) : string :=
  "whatsapp-" +:+ Js.decimal now2 +:+ ".zip".

Definition zip_path (dir : string) (now2 : N) : string :=
  Path.join [Stateless.OUTPUT_DIR dir; zip_name now2].

Lemma insert_keeps (d : gmap string stored) (k q : string) (v : stored) :
  is_Some (d !! q) → is_Some (<[k := v]> d !! q).
Proof.
  intros Hq. destruct (decide (k = q)) as [-> | Hne].
  - rewrite lookup_insert_eq. eauto.
  - by rewrite lookup_insert_ne.
Qed.

(** X22: a timer is set only when the temporary file was written and the
    archive built, 5000 ms ahead, for a file that is on the disk; when
    writing or archiving fails the trace is one answer. The handler itself
    removes nothing from the disk. *)
Theorem timer_only_after_archive (dir : string) (dev : bool) (naf : string)
    (body : Json.t) (protocol : string) (host : option string)
    (now1 now2 : N) (write_error : option string) (zip : zip_outcome)
    (d : gmap string stored) (trace : list event)
    (d' : gmap string stored) :
  receive dir dev naf body protocol host now1 now2 write_error zip d
  = Some (trace, d') →
  (∀ delay p, Timer delay p ∈ trace →
     delay = 5000 ∧ write_error = None ∧ zip = ZipClosed
     ∧ wants_file body = true ∧ is_Some (d' !! p))
  ∧ (write_error ≠ None ∨ resolved zip = false →
     ∃ a, is_answer a ∧ trace = [a])
  ∧ (∀ q, is_Some (d !! q) → is_Some (d' !! q)).
Proof.
  destruct (wants_file body) eqn:Hwants.
  2: { destruct (receive_quiet dir dev naf body protocol host now1 now2
                   write_error zip d Hwants) as (a & Ha & ->).
       intros [= <- <-]. split; [| split; [eauto | done]].
       intros delay p [Heq | Hin%elem_of_nil]%elem_of_cons; [| done].
       destruct Ha as (? & ? & ->). discriminate Heq. }
  unfold wants_file, is_media, media_of, message_of, value_of in Hwants.
  unfold receive.
  apply andb_true_iff in Hwants as [Hwants Hid].
  apply andb_true_iff in Hwants as [Hwants Hmedia].
  apply andb_true_iff in Hwants as [Hstatus Hmsg].
  apply negb_true_iff in Hstatus. rewrite Hstatus, Hmsg, Hmedia.
  cbn [negb]. cbv zeta. rewrite Hid. cbn [negb].
  destruct (fileExt _ _) as [ext |].
  2: { intros [= <- <-]. split; [| split; [| done]].
       - intros delay p [[=] | Hin%elem_of_nil]%elem_of_cons; done.
       - intros _. eexists. split; [by eexists _, _ | done]. }
  destruct write_error as [message |].
  { intros [= <- <-]. split; [| split; [| done]].
    - intros delay p [[=] | Hin%elem_of_nil]%elem_of_cons; done.
    - intros _. eexists. split; [by eexists _, _ | done]. }
  cbn [originalname].
  destruct (Json.or _ _) as [[| b | n | name | l | m] |]; try done.
  destruct zip as [| message created].
  - intros [= <- <-]. split; [| split].
    + intros delay p [[= <- <-] | Hin]%elem_of_cons.
      * repeat split; try done. simpl.
        match goal with
        | |- is_Some (<[?z := _]> (<[?t := _]> d) !! ?t) =>
            destruct (decide (z = t)) as [-> | Hne];
              [rewrite lookup_insert_eq
              | rewrite lookup_insert_ne, lookup_insert_eq by done]; eauto
        end.
      * apply elem_of_cons in Hin as [[=] | Hin%elem_of_nil]; done.
    + intros [Hw | Hz]; done.
    + intros q Hq. simpl. by apply insert_keeps, insert_keeps.
  - intros [= <- <-]. split; [| split].
    + intros delay p [[=] | Hin%elem_of_nil]%elem_of_cons; done.
    + intros _. eexists. split; [by eexists _, _ | done].
    + intros q Hq. simpl. destruct created; by repeat apply insert_keeps.
Qed.

Definition image_message : Json.t :=
  Json.Obj [("entry", Json.Arr [Json.Obj [("changes", Json.Arr [Json.Obj
    [("value", Json.Obj [("messages", Json.Arr [Json.Obj
       [("id", Json.Str "wamid.2"); ("type", Json.Str "image");
        ("image", Json.Obj [("id", Json.Str "media.7");
                            ("mime_type", Json.Str "image/jpeg")])]])])]])]])].

Lemma timer_only_after_archive_witness :
  ∃ a, is_answer a
       ∧ receive "/app" true "x is not a function" image_message "https"
           (Some "zip.example") 10 20 None (ZipError "EIO" true) ∅
         = Some ([a], {["/app/uploads/whatsapp-10.jpg" := Blob;
                        "/app/paquetes/whatsapp-20.zip" := Partial]}).
Proof.
  assert (Hrun : receive "/app" true "x is not a function" image_message
                   "https" (Some "zip.example") 10 20 None
                   (ZipError "EIO" true) ∅
                 = Some ([failure true "EIO"],
                         {["/app/uploads/whatsapp-10.jpg" := Blob;
                           "/app/paquetes/whatsapp-20.zip" := Partial]}))
    by (by vm_compute).
  destruct (timer_only_after_archive _ _ _ _ _ _ _ _ _ _ _ _ _ Hrun)
    as (_ & Hone & _).
  destruct (Hone (or_intror eq_refl)) as (a & Ha & Htrace).
  exists a. split; [exact Ha |]. rewrite Hrun. by rewrite Htrace.
Defined.

Lemma tmp_name_plain (now1 : N) : plain (tmp_name now1 "jpg").
Proof.
  unfold plain, tmp_name. split.
  - by rewrite !has_sep_app, NameFacts.decimal_no_sep.
  - rewrite !app_cons. repeat split; discriminate.
Qed.

Lemma webhook_zip_name_plain (now2 : N) : plain (zip_name now2).
Proof.
  unfold plain, zip_name. split.
  - by rewrite !has_sep_app, NameFacts.decimal_no_sep.
  - rewrite !app_cons. repeat split; discriminate.
Qed.

(** X23: an image message with a media id and no file name, when writing
    and archiving succeed: the temporary file is
    [UPLOAD_DIR/whatsapp-<time>.jpg], the archive
    [OUTPUT_DIR/whatsapp-<time>.zip] holds it as its one member under the
    generated name, the answer names the archive, and once the timer has
    fired the temporary file is gone and the archive is still there. *)
Theorem image_message_archived (dir : string) (dev : bool) (naf : string)
    (body : Json.t) (protocol : string) (host : option string)
    (now1 now2 : N) (d : gmap string stored) :
  first_is_sep dir = true →
  wants_file body = true →
  Json.is_text (Json.prop (message_of body) "type") "image" = true →
  Json.prop (media_of body) "filename" = None →
  let tmp := tmp_path dir now1 "jpg" in
  let zipp := zip_path dir now2 in
  let d' := <[zipp := Archive [(tmp, tmp_name now1 "jpg")]]>
              (<[tmp := Blob]> d) in
  tmp = Stateless.UPLOAD_DIR dir +:+ "/" +:+ tmp_name now1 "jpg"
  ∧ (∃ fields,
       receive dir dev naf body protocol host now1 now2 None ZipClosed d
       = Some ([Timer 5000 tmp; Answer 200 fields], d')
       ∧ ("filename", text (zip_name now2)) ∈ fields
       ∧ ("downloadUrl",
          text (protocol +:+ "://" +:+ default "undefined" host
                +:+ "/descargar/" +:+ zip_name now2)) ∈ fields)
  ∧ after_timers [Timer 5000 tmp] d' !! tmp = None
  ∧ after_timers [Timer 5000 tmp] d' !! zipp
    = Some (Archive [(tmp, tmp_name now1 "jpg")]).
Proof.
  intros Habs Hwants Himage Hnoname. cbv zeta.
  assert (Hsub : plain "uploads") by (by repeat split).
  destruct (join_plain_inside dir "uploads" _ Habs Hsub (tmp_name_plain now1))
    as [Hjoin _].
  split; [exact Hjoin |].
  assert (Hdiff : tmp_path dir now1 "jpg" ≠ zip_path dir now2).
  { apply IntakeMore.upload_and_output_differ;
      [done | apply tmp_name_plain | apply webhook_zip_name_plain]. }
  split; [| split].
  - unfold wants_file, is_media, media_of, message_of, value_of in *.
    unfold receive.
    apply andb_true_iff in Hwants as [Hwants Hid].
    apply andb_true_iff in Hwants as [Hwants Hmedia].
    apply andb_true_iff in Hwants as [Hstatus Hmsg].
    apply negb_true_iff in Hstatus.
    rewrite Himage in Hid, Hnoname.
    rewrite Hstatus, Hmsg, Hmedia. cbn [negb]. cbv zeta.
    rewrite Himage. unfold fileExt. cbn [String.eqb Ascii.eqb Bool.eqb].
    rewrite Hid. cbn [negb originalname]. rewrite Hnoname.
    eexists. split; [reflexivity |].
    split; [by do 3 right; left | by do 2 right; left].
  - unfold after_timers. simpl. apply lookup_delete_eq.
  - unfold after_timers. simpl.
    rewrite lookup_delete_ne by done. apply lookup_insert_eq.
Qed.

Lemma image_message_archived_witness :
  after_timers [Timer 5000 "/app/uploads/whatsapp-10.jpg"]
    {["/app/paquetes/whatsapp-20.zip"
        := Archive [("/app/uploads/whatsapp-10.jpg", "whatsapp-10.jpg")];
      "/app/uploads/whatsapp-10.jpg" := Blob]}
    !! "/app/paquetes/whatsapp-20.zip"
  = Some (Archive [("/app/uploads/whatsapp-10.jpg", "whatsapp-10.jpg")]).
Proof.
  destruct (image_message_archived "/app" false "x is not a function"
              image_message "https" (Some "zip.example") 10 20 ∅
              eq_refl eq_refl eq_refl eq_refl) as (_ & _ & _ & Hzip).
  exact Hzip.
Defined.

(** X24: a document message whose [filename] is neither missing, [null]
    nor a string makes [filename.split] fail; the handler catches it and
    answers 500 (with the engine's message in development only), before
    the media id is looked at and before anything is written. *)
Theorem document_bad_filename (dir : string) (dev : bool) (naf : string)
    (body : Json.t) (protocol : string) (host : option string)
    (now1 now2 : N) (write_error : option string) (zip : zip_outcome)
    (d : gmap string stored) (v : Json.t) :
  Json.truthy (Json.prop (value_of body) "statuses") = false →
  Json.is_text (Json.prop (message_of body) "type") "document" = true →
  Json.prop (Json.prop (message_of body) "document") "filename" = Some v →
  v ≠ Json.Null → (∀ s, v ≠ Json.Str s) →
  receive dir dev naf body protocol host now1 now2 write_error zip d
  = Some ([Answer 500 [("success", flag false);
                       ("error", text "Error al procesar el mensaje");
                       ("details", if dev then text naf else None)]], d).
Proof.
  intros Hstatus Hdoc Hname Hnull Hstr.
  unfold receive. fold (value_of body). fold (message_of body).
  rewrite Hstatus.
  destruct (message_of body) as [[| b | n | s | l | members] |] eqn:Hmsg;
    try done.
  cbn [Json.truthy negb]. rewrite Hdoc, orb_true_r. cbv zeta.
  assert (Himage : Json.is_text (Json.prop (Some (Json.Obj members)) "type")
                     "image" = false).
  { destruct (Json.prop _ "type") as [[| b | n | s | l | m] |]; try done.
    simpl in Hdoc |- *. apply String.eqb_eq in Hdoc. by subst s. }
  rewrite Himage. unfold fileExt. cbn [String.eqb Ascii.eqb Bool.eqb].
  rewrite Hname.
  destruct v as [| b | n | s | l | m]; try done. by destruct (Hstr s).
Qed.

Definition odd_document : Json.t :=
  Json.Obj [("entry", Json.Arr [Json.Obj [("changes", Json.Arr [Json.Obj
    [("value", Json.Obj [("messages", Json.Arr [Json.Obj
       [("id", Json.Str "wamid.3"); ("type", Json.Str "document");
        ("document", Json.Obj [("id", Json.Str "media.9");
                               ("filename", Json.Num 2024)])]])])]])]])].

Lemma document_bad_filename_witness :
  receive "/app" true "x.split is not a function" odd_document "https"
    (Some "zip.example") 10 20 None ZipClosed ∅
  = Some ([Answer 500 [("success", flag false);
                       ("error", text "Error al procesar el mensaje");
                       ("details", text "x.split is not a function")]], ∅).
Proof.
  apply (document_bad_filename "/app" true "x.split is not a function"
           odd_document "https" (Some "zip.example") 10 20 None ZipClosed ∅
           (Json.Num 2024)); try done.
Defined.

Lemma after_last_dot_ext (base ext : string) :
  last_dot ext = None → Json.after_last_dot (base +:+ String "." ext) = ext.
Proof.
  intros Hdot. unfold Json.after_last_dot.
  destruct base as [| c base].
  - rewrite app_empty_l. simpl. by rewrite Hdot.
  - by rewrite (IntakeMore.last_dot_prefix (String c base) _ _ _ ltac:(done)
                  (IntakeMore.last_dot_none_sep ext Hdot)).
Qed.

Lemma tmp_name_ext_plain (now1 : N) (ext : string) :
  has_sep ext = false → plain (tmp_name now1 ext).
Proof.
  intros Hext. unfold plain, tmp_name. split.
  - by rewrite !has_sep_app, NameFacts.decimal_no_sep, Hext.
  - rewrite !app_cons. repeat split; discriminate.
Qed.

(** X25: a document message with a media id whose file name is
    [<base>.<ext>], the extension without dot or slash, when writing and
    archiving succeed: the temporary file is
    [UPLOAD_DIR/whatsapp-<time>.<ext>], strictly inside the upload
    directory, and the archive holds it as its one member under the file
    name of the message. *)
Theorem document_message_archived (dir : string) (dev : bool) (naf : string)
    (body : Json.t) (protocol : string) (host : option string)
    (now1 now2 : N) (d : gmap string stored) (base ext : string) :
  first_is_sep dir = true →
  wants_file body = true →
  Json.is_text (Json.prop (message_of body) "type") "document" = true →
  Json.prop (media_of body) "filename"
  = Some (Json.Str (base +:+ String "." ext)) →
  ext ≠ "" → last_dot ext = None → has_sep ext = false →
  let tmp := tmp_path dir now1 ext in
  inside (Stateless.UPLOAD_DIR dir) tmp = true
  ∧ ∃ fields,
      receive dir dev naf body protocol host now1 now2 None ZipClosed d
      = Some ([Timer 5000 tmp; Answer 200 fields],
              <[zip_path dir now2
                  := Archive [(tmp, base +:+ String "." ext)]]>
                (<[tmp := Blob]> d)).
Proof.
  intros Habs Hwants Hdoc Hname Hext Hdot Hsep. cbv zeta.
  assert (Hsub : plain "uploads") by (by repeat split).
  destruct (join_plain_inside dir "uploads" _ Habs Hsub
              (tmp_name_ext_plain now1 ext Hsep)) as [_ Hinside].
  split; [exact Hinside |].
  unfold wants_file, is_media, media_of, message_of, value_of in *.
  unfold receive.
  apply andb_true_iff in Hwants as [Hwants Hid].
  apply andb_true_iff in Hwants as [Hwants Hmedia].
  apply andb_true_iff in Hwants as [Hstatus Hmsg].
  apply negb_true_iff in Hstatus.
  assert (Himage : Json.is_text
                     (Json.prop
                        (Json.first
                           (Json.prop
                              (Json.prop
                                 (Json.first
                                    (Json.prop
                                       (Json.first
                                          (Json.prop (Some body) "entry"))
                                       "changes")) "value") "messages"))
                        "type") "image" = false).
  { destruct (Json.prop _ "type") as [[| b | n | s | l | m] |]; try done.
    simpl in Hdoc |- *. apply String.eqb_eq in Hdoc. by subst s. }
  rewrite Himage in Hid, Hname.
  rewrite Hstatus, Hmsg, Hmedia. cbn [negb]. cbv zeta.
  rewrite Himage. unfold fileExt. cbn [String.eqb Ascii.eqb Bool.eqb].
  rewrite Hname, (after_last_dot_ext base ext Hdot).
  apply String.eqb_neq in Hext. rewrite Hext, Hid.
  cbn [negb originalname]. unfold Json.or.
  assert (Htruthy : Json.truthy (Some (Json.Str (base +:+ String "." ext)))
                    = true).
  { simpl. apply negb_true_iff, String.eqb_neq. by apply app_not_empty_r. }
  rewrite Htruthy. by eexists.
Qed.

Definition pdf_message : Json.t :=
  Json.Obj [("entry", Json.Arr [Json.Obj [("changes", Json.Arr [Json.Obj
    [("value", Json.Obj [("messages", Json.Arr [Json.Obj
       [("id", Json.Str "wamid.4"); ("type", Json.Str "document");
        ("document", Json.Obj [("id", Json.Str "media.11");
                               ("filename", Json.Str "informe final.pdf")])
       ]])])]])]])].

Lemma document_message_archived_witness :
  ∃ fields,
    receive "/app" false "x is not a function" pdf_message "https"
      (Some "zip.example") 10 20 None ZipClosed ∅
    = Some ([Timer 5000 "/app/uploads/whatsapp-10.pdf"; Answer 200 fields],
            {["/app/paquetes/whatsapp-20.zip"
                := Archive [("/app/uploads/whatsapp-10.pdf",
                             "informe final.pdf")];
              "/app/uploads/whatsapp-10.pdf" := Blob]}).
Proof.
  assert (Hext : "pdf" ≠ "") by discriminate.
  destruct (document_message_archived "/app" false "x is not a function"
              pdf_message "https" (Some "zip.example") 10 20 ∅
              "informe final" "pdf" eq_refl eq_refl eq_refl eq_refl Hext
              eq_refl eq_refl) as (_ & fields & Hrun).
  exists fields. exact Hrun.
Defined.

End WebhookFacts.
